(** * ctcompress: the packet compressor of [csrc/compress.c]

    A shallow embedding of the C function [compress] and the properties
    of its match finder, its packet encoder and its two-configuration
    trial.

    Conventions of the embedding.
    - C [int] values are modelled by [Z].  Every quantity of the
      function stays between [-0x0FFF] and the larger of [len_source]
      and [0xFFFF], so no [int] operation wraps for any [len_source] an
      [int] can hold and the arithmetic is written without reduction;
      [/] and [%] are the truncating [Z.quot] and [Z.rem].
    - A [char] cell holds the bit pattern of its byte as a number in
      [0, 256); storing an [int] expression reduces it modulo [0x100].
    - [source] is the memory behind [buffer.buf]; [len_source] is the
      [int] variable that line 45 assigns from [buffer.len].  The
      embedding starts after that assignment, at line 47, and every
      statement is about the value this variable holds; the conversion
      of [buffer.len] to [int] is not part of it.  A read [source[k]]
      is checked against
      [0 <= k < len_source] and a write [compressed_data[i][k]] against
      [0 <= k < 0x10000]: an access outside raises a [fault] instead of
      being undefined.
    - [compressed_data] is not initialised by the C code; its initial
      contents are a parameter of the model. *)

From Stdlib Require Import ZArith List Bool Lia.
Import ListNotations.
Local Open Scope Z_scope.

(** ** Results of checked computations *)

Inductive fault : Type :=
| ReadOutOfBounds
| WriteOutOfBounds
| OutOfFuel.

Inductive res (A : Type) : Type :=
| Ok (a : A)
| Fault (f : fault).

Arguments Ok {A} a.
Arguments Fault {A} f.

Definition bind {A B : Type} (m : res A) (k : A -> res B) : res B :=
  match m with
  | Ok a => k a
  | Fault f => Fault f
  end.

Notation "x <- m ;; k" := (bind m (fun x => k))
  (at level 61, m at next level, right associativity).

(** ** Configuration [i] *)

Definition lookback_range_of (i : Z) : Z := Z.lor 0x07FF (Z.shiftl i 11).

Definition length_shift (i : Z) : Z := 16 - (5 - i).

Definition max_copy_length_of (i : Z) : Z :=
  Z.shiftr (Z.lxor 0xFFFF (lookback_range_of i)) (length_shift i) + 3.

Definition tag_byte (i : Z) : Z := 0xC0 * (1 - i).

(** ** Memory *)

Definition capacity : Z := 0x10000.

Definition to_char (v : Z) : Z := v mod 0x100.

(** One row [compressed_data[i]] of the output array. *)
Definition row : Type := Z -> Z.

Definition poke (d : row) (k v : Z) : row :=
  fun j => if j =? k then v else d j.

Definition store (d : row) (k v : Z) : res row :=
  if (0 <=? k) && (k <? capacity) then Ok (poke d k v)
  else Fault WriteOutOfBounds.

(** The elements a trial has emitted.  This log is not a variable of the
    C function: it records, for the statements below, what each
    iteration of the bit loop wrote. *)
Inductive element : Type :=
| Literal (byte : Z)
| Match (lookback : Z) (best_len : Z).

(** The local variables of one iteration of the loop over [i]; [data]
    is [compressed_data[i]] and [length] is [compressed_lengths[i]].
    [emitted] lists the elements written so far, latest first. *)
Record trial_state : Type := mkState {
  data : row;
  length : Z;
  header_pos : Z;
  src_pos : Z;
  out_pos : Z;
  done : bool;
  emitted : list element
}.

Section Compress.

Variable source : Z -> Z.
Variable len_source : Z.

Definition load (k : Z) : res Z :=
  if (0 <=? k) && (k <? len_source) then Ok (source k)
  else Fault ReadOutOfBounds.

(** ** Match finder *)

Section MatchFinder.

Variable max_copy_length : Z.
Variable p : Z.

(** [while ((src_pos + cur_len < len_source) && (cur_len < max_copy_length)
           && source[start+cur_len] == source[src_pos+cur_len]) cur_len += 1;] *)
Fixpoint extend (fuel : nat) (start cur_len : Z) : res Z :=
  match fuel with
  | O => Fault OutOfFuel
  | S fuel' =>
      if (p + cur_len <? len_source) && (cur_len <? max_copy_length) then
        a <- load (start + cur_len) ;;
        b <- load (p + cur_len) ;;
        if a =? b then extend fuel' start (cur_len + 1) else Ok cur_len
      else Ok cur_len
  end.

Definition extend_fuel : nat := S (Z.to_nat max_copy_length).

(** The value of [cur_len] after the [while] loop for one [start]. *)
Definition match_length (start : Z) : res Z := extend extend_fuel start 0.

(** [for (start = lookback_st; start < lookback_end; start++)], with the
    running [(best_len, best_len_st)]. *)
Fixpoint scan (fuel : nat) (lookback_end start best_len best_len_st : Z)
  : res (Z * Z) :=
  match fuel with
  | O => Fault OutOfFuel
  | S fuel' =>
      if start <? lookback_end then
        cur_len <- match_length start ;;
        if cur_len >=? best_len then
          if cur_len =? max_copy_length then Ok (cur_len, start)
          else scan fuel' lookback_end (start + 1) cur_len start
        else scan fuel' lookback_end (start + 1) best_len best_len_st
      else Ok (best_len, best_len_st)
  end.

Variable lookback_range : Z.

Definition lookback_st : Z :=
  if p - lookback_range >? 0 then p - lookback_range else 0.

(** Lines 124 to 148: the pair [(best_len, best_len_st)] at [src_pos = p]. *)
Definition find_match : res (Z * Z) :=
  let lookback_end := p in
  scan (S (Z.to_nat (lookback_end - lookback_st))) lookback_end lookback_st 0 0.

End MatchFinder.

(** ** Packet encoder *)

Section Trial.

Variable i : Z.
Variable best_size : Z.

(** [for (j = addendum_size - 1; j >= 0; j--)
      compressed_data[i][header_pos+3+j] = compressed_data[i][header_pos+j];] *)
Fixpoint shift_addendum (fuel : nat) (hp j : Z) (d : row) : res row :=
  match fuel with
  | O => Fault OutOfFuel
  | S fuel' =>
      if j >=? 0 then
        d' <- store d (hp + 3 + j) (d (hp + j)) ;;
        shift_addendum fuel' hp (j - 1) d'
      else Ok d
  end.

(** Lines 79 to 122: the source is exhausted at bit [bit]. *)
Definition terminate (bit : Z) (st : trial_state) : res trial_state :=
  let hp := header_pos st in
  r <-
    (if bit =? 0 then
       d <- store (data st) hp (to_char (tag_byte i)) ;;
       Ok (d, hp + 1)
     else
       let mask := Z.land (Z.shiftl 0xFF bit) 0xFF in
       d <- store (data st) hp (to_char (Z.lor (data st hp) mask)) ;;
       let addendum_size := out_pos st - hp in
       d <- shift_addendum (S (Z.to_nat addendum_size)) hp (addendum_size - 1) d ;;
       d <- store d hp (to_char (Z.lor (tag_byte i) bit)) ;;
       d <- store d (hp + 1) (to_char (Z.rem (out_pos st + 3) 0x100)) ;;
       d <- store d (hp + 2) (to_char (Z.quot (out_pos st + 3) 0x100)) ;;
       d <- store d (out_pos st + 3) (to_char (tag_byte i)) ;;
       Ok (d, out_pos st + 4)) ;;
  let (d, len) := r in
  d <- store d 0 (to_char (Z.rem (hp - 2) 0x100)) ;;
  d <- store d 1 (to_char (Z.quot (hp - 2) 0x100)) ;;
  Ok (mkState d len hp (src_pos st) (out_pos st) true (emitted st)).

(** Lines 124 to 179: one element, a match or a literal. *)
Definition encode_element (bit : Z) (st : trial_state) : res trial_state :=
  let hp := header_pos st in
  m <- find_match (max_copy_length_of i) (src_pos st) (lookback_range_of i) ;;
  let (best_len, best_len_st) := m in
  if best_len >? 2 then
    d <- store (data st) hp (to_char (Z.lor (data st hp) (Z.shiftl 1 bit))) ;;
    let lookback := src_pos st - best_len_st in
    let compr_stream :=
      Z.lor lookback (Z.shiftl (best_len - 3) (16 - (5 - i))) in
    d <- store d (out_pos st) (to_char (Z.rem compr_stream 0x100)) ;;
    d <- store d (out_pos st + 1) (to_char (Z.quot compr_stream 0x100)) ;;
    Ok (mkState d (length st) hp (src_pos st + best_len) (out_pos st + 2)
          (done st) (Match lookback best_len :: emitted st))
  else
    b <- load (src_pos st) ;;
    d <- store (data st) (out_pos st) b ;;
    Ok (mkState d (length st) hp (src_pos st + 1) (out_pos st + 1)
          (done st) (Literal b :: emitted st)).

(** [for (int bit = 0; bit < 8; bit++)] *)
Fixpoint packet (fuel : nat) (bit : Z) (st : trial_state) : res trial_state :=
  match fuel with
  | O => Fault OutOfFuel
  | S fuel' =>
      if bit <? 8 then
        if src_pos st =? len_source then terminate bit st
        else
          st' <- encode_element bit st ;;
          packet fuel' (bit + 1) st'
      else Ok st
  end.

(** [while (!done)] *)
Fixpoint encode (fuel : nat) (st : trial_state) : res trial_state :=
  match fuel with
  | O => Fault OutOfFuel
  | S fuel' =>
      if negb (done st) then
        if out_pos st >=? best_size then Ok st
        else
          let hp := out_pos st in
          d <- store (data st) hp 0 ;;
          st' <- packet 9 0
                   (mkState d (length st) hp (src_pos st) (out_pos st + 1)
                      (done st) (emitted st)) ;;
          encode fuel' st'
      else Ok st
  end.

Definition encode_fuel : nat := S (Z.to_nat best_size).

(** Lines 50 to 181: the body of the loop over [i], before the update
    of [best_size]. *)
Definition trial (d : row) (hp : Z) : res trial_state :=
  encode encode_fuel (mkState d 0x10000 hp 0 2 false []).

End Trial.

(** ** The two trials and the selection *)

(** The bytes [d[from .. from + n)]. *)
Definition bytes_from (d : row) (from : Z) (n : nat) : list Z :=
  map (fun k => d (from + Z.of_nat k)) (seq 0 n).

(** What [Py_BuildValue("y#", &compressed_data[i][0], compressed_lengths[i])]
    copies out of the row of a trial. *)
Definition frame (st : trial_state) : list Z :=
  bytes_from (data st) 0 (Z.to_nat (length st)).

(** [if (compressed_lengths[i] < best_size) best_size = compressed_lengths[i];] *)
Definition tighten (best_size len : Z) : Z :=
  if len <? best_size then len else best_size.

(** [if (compressed_lengths[0] <= compressed_lengths[1]) ret_choice = 0;
     else ret_choice = 1;] *)
Definition select (t0 t1 : trial_state) : trial_state :=
  if length t0 <=? length t1 then t0 else t1.

(** The whole function; the loop over [i] runs for [i = 0] and [i = 1]. *)
Definition compress (compressed_data : Z -> row) : res (list Z) :=
  let best_size := 0x1000 in
  t0 <- trial 0 best_size (compressed_data 0) 0 ;;
  let best_size := tighten best_size (length t0) in
  t1 <- trial 1 best_size (compressed_data 1) (header_pos t0) ;;
  Ok (frame (select t0 t1)).

(** The variant the specification compares [compress] with: both trials
    run with the bound [0x1000], whatever the first one produced. *)
Definition compress_untightened (compressed_data : Z -> row) : res (list Z) :=
  t0 <- trial 0 0x1000 (compressed_data 0) 0 ;;
  t1 <- trial 1 0x1000 (compressed_data 1) (header_pos t0) ;;
  Ok (frame (select t0 t1)).

End Compress.

(** The input as the caller passes it: a byte string. *)
Definition of_bytes (s : list Z) : Z -> Z := fun k => nth (Z.to_nat k) s 0.

Definition compress_bytes (garbage : Z -> row) (s : list Z) : res (list Z) :=
  compress (of_bytes s) (Z.of_nat (List.length s)) garbage.

(** A stack that happens to hold zeros. *)
Definition zeros : Z -> row := fun _ _ => 0.

(** ** Vocabulary of the statements *)

(** Source bytes an element stands for. *)
Definition consumed (e : element) : Z :=
  match e with
  | Literal _ => 1
  | Match _ best_len => best_len
  end.

Definition total_consumed (l : list element) : Z :=
  fold_right (fun e acc => consumed e + acc) 0 l.

(** The packed word of a match, as line 164 computes it. *)
Definition compr_stream_of (i lookback best_len : Z) : Z :=
  Z.lor lookback (Z.shiftl (best_len - 3) (length_shift i)).

(** The bytes an element occupies in the row of trial [i]. *)
Definition element_bytes (i : Z) (e : element) : list Z :=
  match e with
  | Literal b => [b]
  | Match lookback best_len =>
      let w := compr_stream_of i lookback best_len in
      [to_char (Z.rem w 0x100); to_char (Z.quot w 0x100)]
  end.

(** The header byte of a packet whose elements, first to last, are [l]:
    bit [k] is set exactly when element [k] is a match. *)
Fixpoint header_bits (bit : Z) (l : list element) : Z :=
  match l with
  | [] => 0
  | Literal _ :: l' => header_bits (bit + 1) l'
  | Match _ _ :: l' => Z.lor (Z.shiftl 1 bit) (header_bits (bit + 1) l')
  end.

(** The well-formedness of a match element under configuration [i]. *)
Definition match_ok (i : Z) (e : element) : Prop :=
  match e with
  | Literal _ => True
  | Match lookback best_len =>
      1 <= lookback <= lookback_range_of i /\
      3 <= best_len <= max_copy_length_of i /\
      Z.land lookback (Z.shiftl (best_len - 3) (length_shift i)) = 0
  end.

(** The elements of the packet being filled when [b] of them are
    written, first to last. *)
Definition packet_elements (b : Z) (st : trial_state) : list element :=
  rev (firstn (Z.to_nat b) (emitted st)).

(** The mask of line 91. *)
Definition unused_bits (bit : Z) : Z := Z.land (Z.shiftl 0xFF bit) 0xFF.

(** The log against the code that filled it: [parsed p l] says that the
    elements [l], latest first, are those the bit loop emits from
    position 0 up to position [p], each one decided by the finder at the
    position where it starts, a match carrying [src_pos - best_len_st]
    and [best_len]. *)
Inductive parsed (source : Z -> Z) (len_source i : Z) : Z -> list element -> Prop :=
| parsed_nil : parsed source len_source i 0 []
| parsed_literal (p : Z) (l : list element) (best_len best_len_st : Z) :
    parsed source len_source i p l ->
    find_match source len_source (max_copy_length_of i) p (lookback_range_of i)
      = Ok (best_len, best_len_st) ->
    best_len <= 2 ->
    parsed source len_source i (p + 1) (Literal (source p) :: l)
| parsed_match (p : Z) (l : list element) (best_len best_len_st : Z) :
    parsed source len_source i p l ->
    find_match source len_source (max_copy_length_of i) p (lookback_range_of i)
      = Ok (best_len, best_len_st) ->
    2 < best_len ->
    parsed source len_source i (p + best_len) (Match (p - best_len_st) best_len :: l).

(** A trial that left the [while] loop through the [break] of line 65. *)
Definition aborted (r : res trial_state) : bool :=
  match r with
  | Ok st => negb (done st)
  | Fault _ => false
  end.

(** The recorded length of a trial. *)
Definition length_of (r : res trial_state) : Z :=
  match r with
  | Ok st => length st
  | Fault _ => 0
  end.

(** ** Invariants of a trial *)

Section Invariants.

Variable source : Z -> Z.
Variable len_source : Z.
Variable i : Z.
Variable d0 : row.

(** What holds at the top of the [while] loop while [done] is unset:
    the length is still the sentinel, the log accounts for the source
    consumed and is what the finder decided, and only the cells from 2
    up to [out_pos] were written. *)
Definition top_inv (st : trial_state) : Prop :=
  done st = false /\
  length st = 0x10000 /\
  0 <= src_pos st <= len_source /\
  2 <= out_pos st /\
  total_consumed (emitted st) = src_pos st /\
  Forall (match_ok i) (emitted st) /\
  (forall k, k < 2 \/ out_pos st <= k -> data st k = d0 k) /\
  parsed source len_source i (src_pos st) (emitted st).

(** What the cells of the packet being filled hold before bit [b]. *)
Definition packet_content (b : Z) (st : trial_state) : Prop :=
  2 <= header_pos st < 0x1000 /\
  header_pos st + 1 + b <= out_pos st <= header_pos st + 1 + 2 * b /\
  (Z.to_nat b <= List.length (emitted st))%nat /\
  bytes_from (data st) (header_pos st + 1)
    (Z.to_nat (out_pos st - header_pos st - 1)) =
    flat_map (element_bytes i) (packet_elements b st) /\
  data st (header_pos st) = header_bits 0 (packet_elements b st).

Definition packet_inv (b : Z) (st : trial_state) : Prop :=
  top_inv st /\ packet_content b st.

(** The end of a frame that stopped on a packet boundary. *)
Definition boundary_layout (st : trial_state) : Prop :=
  length st = header_pos st + 1 /\
  data st (header_pos st) = tag_byte i.

(** The end of a frame that stopped after [a] elements of a packet. *)
Definition addendum_layout (st : trial_state) : Prop :=
  exists a,
    1 <= a <= 7 /\
    (Z.to_nat a <= List.length (emitted st))%nat /\
    length st = out_pos st + 4 /\
    bytes_from (data st) (header_pos st)
      (Z.to_nat (length st - header_pos st)) =
      [Z.lor (tag_byte i) a;
       (out_pos st + 3) mod 0x100;
       (out_pos st + 3) / 0x100;
       Z.lor (header_bits 0 (packet_elements a st)) (unused_bits a)]
      ++ flat_map (element_bytes i) (packet_elements a st)
      ++ [tag_byte i].

(** What holds once a trial has set [done]. *)
Definition finished (st : trial_state) : Prop :=
  done st = true /\
  src_pos st = len_source /\
  2 <= header_pos st < 0x1000 /\
  header_pos st < out_pos st /\
  header_pos st + 1 <= length st <= header_pos st + 19 /\
  total_consumed (emitted st) = len_source /\
  Forall (match_ok i) (emitted st) /\
  parsed source len_source i len_source (emitted st) /\
  data st 0 = (header_pos st - 2) mod 0x100 /\
  data st 1 = (header_pos st - 2) / 0x100 /\
  (boundary_layout st \/ addendum_layout st).

(** The row a mid-packet termination leaves, cell by cell. *)
Definition addendum_row (b : Z) (st : trial_state) : row :=
  let hp := header_pos st in
  let d1 := poke (data st) hp (to_char (Z.lor (data st hp) (unused_bits b))) in
  fun k =>
    if k =? 1 then to_char (Z.quot (hp - 2) 0x100)
    else if k =? 0 then to_char (Z.rem (hp - 2) 0x100)
    else if k =? out_pos st + 3 then to_char (tag_byte i)
    else if k =? hp + 2 then to_char (Z.quot (out_pos st + 3) 0x100)
    else if k =? hp + 1 then to_char (Z.rem (out_pos st + 3) 0x100)
    else if k =? hp then to_char (Z.lor (tag_byte i) b)
    else if (hp + 3 <=? k) && (k <=? out_pos st + 2) then d1 (k - 3)
    else d1 k.

(** The row a termination on a packet boundary leaves. *)
Definition boundary_row (st : trial_state) : row :=
  let hp := header_pos st in
  poke (poke (poke (data st) hp (to_char (tag_byte i)))
          0 (to_char (Z.rem (hp - 2) 0x100)))
    1 (to_char (Z.quot (hp - 2) 0x100)).

End Invariants.

(** ** A trial without the finder

    The bit loop, the [while] loop and the trial with lines 174 to 179 in
    place of the whole element: what a trial does on an input where the
    finder never returns a length above two. *)

Section LiteralModel.

Variable source : Z -> Z.
Variable len_source : Z.
Variable i : Z.

(** Lines 174 to 179 alone. *)
Definition literal_element (st : trial_state) : res trial_state :=
  b <- load source len_source (src_pos st) ;;
  d <- store (data st) (out_pos st) b ;;
  Ok (mkState d (length st) (header_pos st) (src_pos st + 1) (out_pos st + 1)
        (done st) (Literal b :: emitted st)).

Fixpoint literal_packet (fuel : nat) (bit : Z) (st : trial_state) : res trial_state :=
  match fuel with
  | O => Fault OutOfFuel
  | S fuel' =>
      if bit <? 8 then
        if src_pos st =? len_source then terminate i bit st
        else
          st' <- literal_element st ;;
          literal_packet fuel' (bit + 1) st'
      else Ok st
  end.

Fixpoint literal_encode (best_size : Z) (fuel : nat) (st : trial_state)
  : res trial_state :=
  match fuel with
  | O => Fault OutOfFuel
  | S fuel' =>
      if negb (done st) then
        if out_pos st >=? best_size then Ok st
        else
          let hp := out_pos st in
          d <- store (data st) hp 0 ;;
          st' <- literal_packet 9 0
                   (mkState d (length st) hp (src_pos st) (out_pos st + 1)
                      (done st) (emitted st)) ;;
          literal_encode best_size fuel' st'
      else Ok st
  end.

Definition literal_trial (best_size : Z) (d : row) (hp : Z) : res trial_state :=
  literal_encode best_size (encode_fuel best_size) (mkState d 0x10000 hp 0 2 false []).

End LiteralModel.

(** ** Inputs of the statements *)

(** The twelve bytes [ABCABCABCABC]. *)
Definition abcabc : list Z := [65; 66; 67; 65; 66; 67; 65; 66; 67; 65; 66; 67].

(** A byte string whose triples spell their own position: the digits of
    a counter in base 16, one digit per byte, each digit in a range of
    its own. *)
Definition counter (k : Z) : Z :=
  let q := k / 3 in
  let r := k mod 3 in
  if r =? 0 then q mod 16
  else if r =? 1 then 16 + (q / 16) mod 16
  else 32 + q / 256.

Definition counter_position (a b c : Z) : Z :=
  if a <? 16 then 3 * (a + 16 * (b - 16) + 256 * (c - 32))
  else if a <? 32 then 3 * ((c - 1) mod 16 + 16 * (a - 16) + 256 * (b - 32)) + 1
  else 3 * (b + 16 * (c - 16)
            + 256 * (a - 32 + if (b =? 0) && (c =? 16) then 1 else 0)) - 1.

Definition counter_decodes (n : nat) : bool :=
  forallb
    (fun k => counter_position (counter k) (counter (k + 1)) (counter (k + 2)) =? k)
    (map Z.of_nat (seq 0 n)).

(** ** The claims that fail, as the specification words them *)

(** The rule of C2 as the specification words it: among the starts of
    the window that reach the returned length, none lies after the
    returned start. *)
Definition closest_start_wins source (len_source i p : Z) : Prop :=
  forall l s,
    find_match source len_source (max_copy_length_of i) p (lookback_range_of i)
      = Ok (l, s) ->
    forall s',
      lookback_st p (lookback_range_of i) <= s' < p ->
      match_length source len_source (max_copy_length_of i) p s' = Ok l ->
      s' <= s.

(** The end of the frame as C3 words it: the elements follow the length
    marker at once. *)
Definition addendum_as_claimed (i : Z) (st : trial_state) (a : Z) : list Z :=
  [Z.lor (tag_byte i) a; (out_pos st + 3) mod 0x100; (out_pos st + 3) / 0x100]
    ++ flat_map (element_bytes i) (packet_elements a st)
    ++ [tag_byte i].

(** ** Meaning of the elements

    What a reader of the frame does with an element: a literal appends
    its byte, a match appends [best_len] bytes, one at a time, each taken
    [lookback] bytes before the end of what has been produced so far. *)

Fixpoint copy_back (n : nat) (lookback : nat) (out : list Z) : list Z :=
  match n with
  | O => out
  | S n' => copy_back n' lookback (out ++ [nth (List.length out - lookback) out 0])
  end.

Definition expand_element (e : element) (out : list Z) : list Z :=
  match e with
  | Literal b => out ++ [b]
  | Match lookback best_len => copy_back (Z.to_nat best_len) (Z.to_nat lookback) out
  end.

(** The bytes a log stands for, the log being latest first. *)
Definition expand (l : list element) : list Z := fold_right expand_element [] l.

(** The fields of a packed word, as its bits give them back. *)
Definition word_lookback (i w : Z) : Z := Z.land w (lookback_range_of i).

Definition word_length (i w : Z) : Z := Z.shiftr w (length_shift i) + 3.

Definition is_literal (e : element) : bool :=
  match e with
  | Literal _ => true
  | Match _ _ => false
  end.

(** ** Layout of a frame

    The bytes of a frame as a function of the elements, first to last:
    the two bytes of the main body length, the full packets of eight
    elements, each behind its header byte, and the terminator, which
    carries the elements left over. *)

Definition packet_bytes (i : Z) (l : list element) : list Z :=
  header_bits 0 l :: flat_map (element_bytes i) l.

Fixpoint full_packets (i : Z) (n : nat) (l : list element) : list Z :=
  match n with
  | O => []
  | S n' => packet_bytes i (firstn 8 l) ++ full_packets i n' (skipn 8 l)
  end.

(** The terminator for the left-over elements [tl]; [marker] is the
    value of [out_pos + 3] of lines 107 and 108. *)
Definition terminator (i marker : Z) (tl : list element) : list Z :=
  match tl with
  | [] => [tag_byte i]
  | _ :: _ =>
      let a := Z.of_nat (List.length tl) in
      [Z.lor (tag_byte i) a; marker mod 0x100; marker / 0x100;
       Z.lor (header_bits 0 tl) (unused_bits a)]
      ++ flat_map (element_bytes i) tl
      ++ [tag_byte i]
  end.

Definition frame_of (i : Z) (l : list element) : list Z :=
  let n := (List.length l / 8)%nat in
  let body := full_packets i n l in
  let tl := skipn (8 * n) l in
  let main_body_length := Z.of_nat (List.length body) in
  let marker :=
    main_body_length + Z.of_nat (List.length (flat_map (element_bytes i) tl)) + 6 in
  [main_body_length mod 0x100; main_body_length / 0x100]
  ++ body
  ++ terminator i marker tl.

(** The variables of a trial other than its row. *)
Definition control (st : trial_state) : Z * Z * Z * Z * bool * list element :=
  (length st, header_pos st, src_pos st, out_pos st, done st, emitted st).

(** What holds of the rows between packets: [n] packets are written,
    and the cells from 2 to [out_pos] are their bytes. *)
Definition top_body (i : Z) (n : nat) (st : trial_state) : Prop :=
  List.length (emitted st) = (8 * n)%nat /\
  bytes_from (data st) 2 (Z.to_nat (out_pos st - 2)) =
    full_packets i n (rev (emitted st)).

(** The same before bit [b] of packet [n]. *)
Definition body_inv (i : Z) (n : nat) (b : Z) (st : trial_state) : Prop :=
  List.length (emitted st) = (8 * n + Z.to_nat b)%nat /\
  bytes_from (data st) 2 (Z.to_nat (header_pos st - 2)) =
    full_packets i n (rev (skipn (Z.to_nat b) (emitted st))).

(** ** Basic facts *)

Lemma bind_Ok {A B : Type} (m : res A) (k : A -> res B) (b : B) :
  bind m k = Ok b -> exists a, m = Ok a /\ k a = Ok b.
Proof.
  destruct m as [a|f]; simpl; intros H; [eauto | discriminate].
Qed.

Ltac inv_bind H :=
  let a := fresh "x" in
  let Ha := fresh "E" in
  apply bind_Ok in H; destruct H as (a & Ha & H).

Lemma store_ok (d : row) (k v : Z) :
  0 <= k < capacity -> store d k v = Ok (poke d k v).
Proof.
  intros Hk. unfold store.
  destruct (Z.leb_spec 0 k); destruct (Z.ltb_spec k capacity); simpl; (reflexivity || lia).
Qed.

Lemma store_Ok (d d' : row) (k v : Z) :
  store d k v = Ok d' -> 0 <= k < capacity /\ d' = poke d k v.
Proof.
  unfold store.
  destruct (Z.leb_spec 0 k); destruct (Z.ltb_spec k capacity); simpl;
    intros E; inversion E; subst; split; (reflexivity || lia).
Qed.

Lemma total_consumed_cons (e : element) (l : list element) :
  total_consumed (e :: l) = consumed e + total_consumed l.
Proof. reflexivity. Qed.

Ltac stores :=
  repeat (rewrite store_ok by (unfold capacity in *; lia); cbn [bind]).

Lemma poke_same (d : row) (k v : Z) : poke d k v k = v.
Proof. unfold poke. now rewrite Z.eqb_refl. Qed.

Lemma poke_other (d : row) (k v j : Z) : j <> k -> poke d k v j = d j.
Proof. unfold poke. intros H. destruct (Z.eqb_spec j k); [contradiction | reflexivity]. Qed.

Lemma load_ok source len_source (k : Z) :
  0 <= k < len_source -> load source len_source k = Ok (source k).
Proof.
  intros Hk. unfold load.
  destruct (Z.leb_spec 0 k); destruct (Z.ltb_spec k len_source); simpl; (reflexivity || lia).
Qed.

Lemma load_Ok source len_source (k v : Z) :
  load source len_source k = Ok v -> 0 <= k < len_source /\ v = source k.
Proof.
  unfold load.
  destruct (Z.leb_spec 0 k); destruct (Z.ltb_spec k len_source); simpl;
    intros E; inversion E; subst; split; (reflexivity || lia).
Qed.

Lemma lookback_range_0 : lookback_range_of 0 = 0x07FF.
Proof. reflexivity. Qed.

Lemma lookback_range_1 : lookback_range_of 1 = 0x0FFF.
Proof. reflexivity. Qed.

Lemma max_copy_length_0 : max_copy_length_of 0 = 34.
Proof. reflexivity. Qed.

Lemma max_copy_length_1 : max_copy_length_of 1 = 18.
Proof. reflexivity. Qed.

(** ** The match finder *)

Section MatchFinderFacts.

Variable source : Z -> Z.
Variable len_source : Z.
Variable max_copy_length : Z.
Variable p : Z.

(** The [while] loop never leaves the input, ends within its fuel, and
    stops on a common prefix of the two positions. *)
Lemma extend_spec (fuel : nat) :
  forall start c,
    0 <= start + c -> start < p ->
    (Z.to_nat (max_copy_length - c) < fuel)%nat ->
    exists c',
      extend source len_source max_copy_length p fuel start c = Ok c' /\
      c <= c' /\
      (c' = c \/ (c' <= max_copy_length /\ p + c' <= len_source)) /\
      (forall k, c <= k < c' -> source (start + k) = source (p + k)).
Proof.
  induction fuel as [|fuel IH]; intros start c Hlo Hlt Hfuel; [lia|].
  cbn [extend].
  destruct (Z.ltb_spec (p + c) len_source) as [Hin|Hout]; cbn [andb].
  2:{ exists c; split; [reflexivity|]; split; [lia|]; split; [now left|intros; lia]. }
  destruct (Z.ltb_spec c max_copy_length) as [Hmc|Hmc].
  2:{ exists c; split; [reflexivity|]; split; [lia|]; split; [now left|intros; lia]. }
  rewrite !load_ok by lia. cbn [bind].
  destruct (Z.eqb_spec (source (start + c)) (source (p + c))) as [Heq|Hne].
  2:{ exists c; split; [reflexivity|]; split; [lia|]; split; [now left|intros; lia]. }
  destruct (IH start (c + 1)) as (c' & Hc' & Hle & Hcase & Hpre); try lia.
  exists c'. split; [exact Hc'|]. split; [lia|]. split.
  - right. destruct Hcase as [->|[? ?]]; lia.
  - intros k Hk. destruct (Z.eq_dec k c) as [->|Hkc]; [exact Heq|]. apply Hpre; lia.
Qed.

Lemma match_length_spec (start : Z) :
  0 <= start < p ->
  exists c,
    match_length source len_source max_copy_length p start = Ok c /\
    0 <= c /\
    (c = 0 \/ (c <= max_copy_length /\ p + c <= len_source)) /\
    (forall k, 0 <= k < c -> source (start + k) = source (p + k)).
Proof.
  intros Hs. unfold match_length, extend_fuel.
  apply extend_spec; lia.
Qed.

(** The [for] loop over [start] ends within its fuel. *)
Lemma scan_total (fuel : nat) :
  forall e start bl bs,
    e <= p -> 0 <= start ->
    (Z.to_nat (e - start) < fuel)%nat ->
    exists r, scan source len_source max_copy_length p fuel e start bl bs = Ok r.
Proof.
  induction fuel as [|fuel IH]; intros e start bl bs He Hs Hfuel; [lia|].
  cbn [scan].
  destruct (Z.ltb_spec start e) as [Hlt|Hge]; [|eauto].
  destruct (match_length_spec start) as (c & -> & _); [lia|]. cbn [bind].
  destruct (c >=? bl).
  - destruct (c =? max_copy_length); [eauto|]. apply IH; lia.
  - apply IH; lia.
Qed.

Hypothesis max_copy_length_pos : 0 < max_copy_length.

Lemma match_length_le (start c : Z) :
  0 <= start < p -> match_length source len_source max_copy_length p start = Ok c -> 0 <= c <= max_copy_length.
Proof.
  intros Hs Hc. destruct (match_length_spec start Hs) as (c' & Hc' & H0 & Hcase & _).
  rewrite Hc in Hc'. inversion Hc'; subst. lia.
Qed.

(** What the running best is after the loop: the greatest length of the
    window; below [max_copy_length] it belongs to the last start that
    reaches it, at [max_copy_length] to the first one. *)
Lemma scan_spec (fuel : nat) :
  forall e start bl bs l s,
    e <= p -> 0 <= start -> 0 <= bl < max_copy_length ->
    scan source len_source max_copy_length p fuel e start bl bs = Ok (l, s) ->
    bl <= l <= max_copy_length /\
    (forall s' c, start <= s' < e -> match_length source len_source max_copy_length p s' = Ok c -> c <= l) /\
    ((l = bl /\ s = bs /\
      forall s' c, start <= s' < e -> match_length source len_source max_copy_length p s' = Ok c -> c < bl)
     \/
     (start <= s < e /\ match_length source len_source max_copy_length p s = Ok l /\
      (l < max_copy_length ->
       forall s' c, s < s' < e -> match_length source len_source max_copy_length p s' = Ok c -> c < l) /\
      (l = max_copy_length ->
       forall s' c, start <= s' < s -> match_length source len_source max_copy_length p s' = Ok c -> c < l))).
Proof.
  induction fuel as [|fuel IH]; intros e start bl bs l s He Hs Hbl Hscan;
    [discriminate|].
  cbn [scan] in Hscan.
  destruct (Z.ltb_spec start e) as [Hlt|Hge].
  2:{ inversion Hscan; subst. split; [lia|]. split; [intros; lia|].
      left. repeat split; intros; lia. }
  destruct (match_length_spec start) as (c & Hc & _); [lia|].
  pose proof (match_length_le start c ltac:(lia) Hc) as Hcle.
  rewrite Hc in Hscan. cbn [bind] in Hscan.
  rewrite Z.geb_leb in Hscan.
  destruct (Z.leb_spec bl c) as [Hup|Hkeep].
  - destruct (Z.eqb_spec c max_copy_length) as [Hmax|Hnmax].
    + inversion Hscan; subst l s. split; [lia|]. split.
      * intros s' c' Hs' Hc'.
        apply match_length_le in Hc'; lia.
      * right. split; [lia|]. split; [exact Hc|]. split; [lia|]. intros; lia.
    + apply IH in Hscan; try lia.
      destruct Hscan as (Hl & Hall & Hcase). split; [lia|]. split.
      * intros s' c' Hs' Hc'.
        destruct (Z.eq_dec s' start) as [->|Hne].
        -- rewrite Hc in Hc'. inversion Hc'; subst. lia.
        -- eapply Hall; [|exact Hc']. lia.
      * right. destruct Hcase as [(-> & -> & Hnone)|(Hin & Hlen & Hlast & Hfirst)].
        -- split; [lia|]. split; [exact Hc|]. split.
           ++ intros _ s' c' Hs' Hc'. eapply Hnone; [|exact Hc']. lia.
           ++ intros; lia.
        -- split; [lia|]. split; [exact Hlen|]. split; [exact Hlast|].
           intros Hm s' c' Hs' Hc'.
           destruct (Z.eq_dec s' start) as [->|Hne].
           ++ rewrite Hc in Hc'. inversion Hc'; subst. lia.
           ++ eapply Hfirst; [exact Hm| |exact Hc']. lia.
  - apply IH in Hscan; try lia.
    destruct Hscan as (Hl & Hall & Hcase). split; [lia|]. split.
    * intros s' c' Hs' Hc'.
      destruct (Z.eq_dec s' start) as [->|Hne].
      -- rewrite Hc in Hc'. inversion Hc'; subst. lia.
      -- eapply Hall; [|exact Hc']. lia.
    * destruct Hcase as [(-> & -> & Hnone)|(Hin & Hlen & Hlast & Hfirst)].
      -- left. repeat split. intros s' c' Hs' Hc'.
         destruct (Z.eq_dec s' start) as [->|Hne].
         ++ rewrite Hc in Hc'. inversion Hc'; subst. lia.
         ++ eapply Hnone; [|exact Hc']. lia.
      -- right. split; [lia|]. split; [exact Hlen|]. split; [exact Hlast|].
         intros Hm s' c' Hs' Hc'.
         destruct (Z.eq_dec s' start) as [->|Hne].
         ++ rewrite Hc in Hc'. inversion Hc'; subst. lia.
         ++ eapply Hfirst; [exact Hm| |exact Hc']. lia.
Qed.

End MatchFinderFacts.

Section FindMatchFacts.

Variable source : Z -> Z.
Variable len_source : Z.
Variable max_copy_length : Z.
Variable p : Z.
Variable lookback_range : Z.

Lemma lookback_st_bounds : 0 <= (lookback_st p lookback_range) /\ p - lookback_range <= (lookback_st p lookback_range).
Proof.
  unfold lookback_st. rewrite Z.gtb_ltb.
  destruct (Z.ltb_spec 0 (p - lookback_range)); lia.
Qed.

(** The finder returns for every position, whatever the configuration. *)
Lemma find_match_total :
  exists l s, find_match source len_source max_copy_length p lookback_range = Ok (l, s).
Proof.
  unfold find_match.
  destruct (scan_total source len_source max_copy_length p
              (S (Z.to_nat (p - (lookback_st p lookback_range))))
              p (lookback_st p lookback_range) 0 0) as ([l s] & H).
  - lia.
  - apply lookback_st_bounds.
  - lia.
  - eauto.
Qed.

Hypothesis max_copy_length_pos : 0 < max_copy_length.

Lemma find_match_spec (l s : Z) :
  find_match source len_source max_copy_length p lookback_range = Ok (l, s) ->
  0 <= l <= max_copy_length /\
  (l = 0 \/ p + l <= len_source) /\
  (forall s' c, (lookback_st p lookback_range) <= s' < p -> match_length source len_source max_copy_length p s' = Ok c -> c <= l) /\
  ((l = 0 /\ s = 0 /\ p <= (lookback_st p lookback_range))
   \/
   (lookback_st p lookback_range <= s < p /\ match_length source len_source max_copy_length p s = Ok l /\
    (l < max_copy_length ->
     forall s' c, s < s' < p -> match_length source len_source max_copy_length p s' = Ok c -> c < l) /\
    (l = max_copy_length ->
     forall s' c, (lookback_st p lookback_range) <= s' < s -> match_length source len_source max_copy_length p s' = Ok c -> c < l))).
Proof.
  unfold find_match. intros H.
  pose proof lookback_st_bounds as [Hst0 Hst].
  apply scan_spec in H; try lia.
  destruct H as (Hl & Hall & Hcase).
  assert (Hlen : l = 0 \/ p + l <= len_source).
  { destruct Hcase as [(-> & _)|(Hin & Hm & _)]; [now left|].
    destruct (match_length_spec source len_source max_copy_length p s)
      as (c & Hc & _ & Hc0 & _); [lia|].
    rewrite Hm in Hc. inversion Hc; subst. lia. }
  split; [lia|]. split; [exact Hlen|]. split; [exact Hall|].
  destruct Hcase as [(-> & -> & Hnone)|Hsome]; [left|right; exact Hsome].
  split; [reflexivity|]. split; [reflexivity|].
  destruct (Z.lt_ge_cases (lookback_st p lookback_range) p) as [Hlt|Hge]; [|lia].
  destruct (match_length_spec source len_source max_copy_length p (lookback_st p lookback_range))
    as (c & Hc & Hc0 & _); [lia|].
  specialize (Hnone (lookback_st p lookback_range) c ltac:(lia) Hc). lia.
Qed.

End FindMatchFacts.

(** ** Bits of the packed word *)

Lemma land_shiftl_disjoint (a b n : Z) :
  0 <= n -> 0 <= a < 2 ^ n -> Z.land a (Z.shiftl b n) = 0.
Proof.
  intros Hn Ha. apply Z.bits_inj'. intros k Hk.
  rewrite Z.land_spec, Z.bits_0.
  destruct (Z.lt_ge_cases k n) as [Hlt|Hge].
  - rewrite (Z.shiftl_spec_low b n k Hlt). apply andb_false_r.
  - replace (Z.testbit a k) with false; [reflexivity|].
    symmetry. destruct (Z.eq_dec a 0) as [->|Hne]; [apply Z.bits_0|].
    apply Z.bits_above_log2; [lia|].
    apply Z.lt_le_trans with n; [|exact Hge].
    apply Z.log2_lt_pow2; lia.
Qed.

Lemma lor_lt_pow2 (a b n : Z) :
  0 <= n -> 0 <= a < 2 ^ n -> 0 <= b < 2 ^ n -> 0 <= Z.lor a b < 2 ^ n.
Proof.
  intros Hn Ha Hb. split; [apply Z.lor_nonneg; lia|].
  destruct (Z.eq_dec a 0) as [->|Ha0]; [rewrite Z.lor_0_l; lia|].
  destruct (Z.eq_dec b 0) as [->|Hb0]; [rewrite Z.lor_0_r; lia|].
  assert (Hpos : 0 < Z.lor a b).
  { assert (0 <= Z.lor a b) by (apply Z.lor_nonneg; lia).
    assert (Z.lor a b <> 0) by (intros H0; apply Z.lor_eq_0_iff in H0; lia). lia. }
  apply Z.log2_lt_pow2; [exact Hpos|].
  rewrite Z.log2_lor by lia.
  apply Z.max_lub_lt; apply Z.log2_lt_pow2; lia.
Qed.

Lemma to_char_small (v : Z) : 0 <= v < 0x100 -> to_char v = v.
Proof. intros Hv. unfold to_char. apply Z.mod_small. exact Hv. Qed.

Lemma unused_bits_bound (bit : Z) : 0 <= unused_bits bit < 0x100.
Proof.
  assert (H : unused_bits bit = Z.shiftl 0xFF bit mod 2 ^ 8).
  { unfold unused_bits. change (Z.land (Z.shiftl 0xFF bit) 0xFF)
      with (Z.land (Z.shiftl 0xFF bit) (Z.ones 8)).
    apply Z.land_ones. lia. }
  rewrite H. apply Z.mod_pos_bound. reflexivity.
Qed.

Lemma rev_firstn_cons {A : Type} (b : Z) (e : A) (l : list A) :
  0 <= b -> rev (firstn (Z.to_nat (b + 1)) (e :: l)) = rev (firstn (Z.to_nat b) l) ++ [e].
Proof.
  intros Hb. replace (Z.to_nat (b + 1)) with (S (Z.to_nat b)) by lia. reflexivity.
Qed.

Lemma to_char_low (x : Z) : 0 <= x -> to_char (Z.rem x 0x100) = x mod 0x100.
Proof.
  intros Hx. rewrite Z.rem_mod_nonneg by lia.
  apply to_char_small. apply Z.mod_pos_bound. lia.
Qed.

Lemma to_char_high (x : Z) : 0 <= x < 0x10000 -> to_char (Z.quot x 0x100) = x / 0x100.
Proof.
  intros Hx. rewrite Z.quot_div_nonneg by lia.
  apply to_char_small. split; [apply Z.div_pos; lia|].
  apply Z.div_lt_upper_bound; lia.
Qed.

(** ** Reading the row *)

Lemma bytes_from_length (d : row) (from : Z) (n : nat) :
  List.length (bytes_from d from n) = n.
Proof. unfold bytes_from. now rewrite length_map, length_seq. Qed.

Lemma bytes_from_ext (d d' : row) (from : Z) (n : nat) :
  (forall k, from <= k < from + Z.of_nat n -> d k = d' k) ->
  bytes_from d from n = bytes_from d' from n.
Proof.
  intros H. unfold bytes_from. apply map_ext_in.
  intros k Hk. apply in_seq in Hk. apply H. lia.
Qed.

Lemma bytes_from_shift (d d' : row) (from delta : Z) (n : nat) :
  (forall k, from <= k < from + Z.of_nat n -> d' k = d (k - delta)) ->
  bytes_from d' from n = bytes_from d (from - delta) n.
Proof.
  intros H. unfold bytes_from. apply map_ext_in.
  intros k Hk. apply in_seq in Hk. rewrite H by lia. f_equal. lia.
Qed.

Lemma map_seq_offset {A : Type} (f : nat -> A) (a : nat) :
  forall m b, map f (seq (a + b) m) = map (fun k => f (a + k)%nat) (seq b m).
Proof.
  induction m as [|m IH]; intros b; cbn [seq map]; [reflexivity|].
  f_equal. rewrite <- IH. now rewrite Nat.add_succ_r.
Qed.

Lemma bytes_from_app (d : row) (from : Z) (n m : nat) :
  bytes_from d from (n + m) =
  bytes_from d from n ++ bytes_from d (from + Z.of_nat n) m.
Proof.
  unfold bytes_from. rewrite seq_app, map_app. f_equal.
  rewrite <- (Nat.add_0_r (0 + n)), map_seq_offset.
  apply map_ext. intros k. f_equal. lia.
Qed.

Lemma bytes_from_one (d : row) (from : Z) : bytes_from d from 1 = [d from].
Proof. unfold bytes_from. cbn. now rewrite Z.add_0_r. Qed.

Lemma bytes_from_two (d : row) (from : Z) :
  bytes_from d from 2 = [d from; d (from + 1)].
Proof. unfold bytes_from. cbn. now rewrite Z.add_0_r. Qed.

Lemma bytes_from_three (d : row) (from : Z) :
  bytes_from d from 3 = [d from; d (from + 1); d (from + 2)].
Proof. unfold bytes_from. cbn. now rewrite Z.add_0_r. Qed.

Ltac decide_cells :=
  repeat match goal with
    | |- context [Z.eqb ?a ?b] => destruct (Z.eqb_spec a b); try lia
    | |- context [Z.leb ?a ?b] => destruct (Z.leb_spec a b); try lia
    end; cbn [andb].

(** ** The header byte of a packet *)

Lemma header_bits_app (l l' : list element) :
  forall b,
    header_bits b (l ++ l') =
    Z.lor (header_bits b l) (header_bits (b + Z.of_nat (List.length l)) l').
Proof.
  induction l as [|[byte|lb bl] l IH]; intros b; cbn [header_bits app List.length].
  - now rewrite Z.add_0_r.
  - rewrite IH. do 2 f_equal. lia.
  - rewrite IH, Z.lor_assoc. do 2 f_equal. lia.
Qed.

Lemma header_bits_bound (l : list element) :
  forall b, 0 <= b -> 0 <= header_bits b l < 2 ^ (b + Z.of_nat (List.length l)).
Proof.
  induction l as [|[byte|lb bl] l IH]; intros b Hb; cbn [header_bits List.length].
  - split; [lia|]. apply Z.pow_pos_nonneg; lia.
  - replace (b + Z.of_nat (S (List.length l))) with (b + 1 + Z.of_nat (List.length l)) by lia.
    apply IH. lia.
  - replace (b + Z.of_nat (S (List.length l))) with (b + 1 + Z.of_nat (List.length l)) by lia.
    apply lor_lt_pow2; [lia| |apply IH; lia].
    rewrite Z.shiftl_1_l. split; [apply Z.pow_nonneg; lia|].
    apply Z.pow_lt_mono_r; lia.
Qed.

Lemma config_cases (i : Z) :
  i = 0 \/ i = 1 ->
  0 < max_copy_length_of i <= 34 /\
  lookback_range_of i = 2 ^ length_shift i - 1 /\
  0 <= length_shift i /\
  0 <= tag_byte i < 0x100.
Proof. intros [->| ->]; vm_compute; intuition congruence. Qed.

(** ** The trial keeps its invariants *)

Section TrialFacts.

Variable source : Z -> Z.
Variable len_source : Z.
Variable i : Z.
Variable d0 : row.

Hypothesis len_source_nonneg : 0 <= len_source.
Hypothesis config : i = 0 \/ i = 1.

Lemma packet_elements_length (b : Z) (st : trial_state) :
  0 <= b -> (Z.to_nat b <= List.length (emitted st))%nat ->
  Z.of_nat (List.length (packet_elements b st)) = b.
Proof.
  intros Hb Hle. unfold packet_elements.
  rewrite length_rev, firstn_length_le by exact Hle. lia.
Qed.

Lemma header_bits_packet (b : Z) (st : trial_state) :
  0 <= b -> (Z.to_nat b <= List.length (emitted st))%nat ->
  0 <= header_bits 0 (packet_elements b st) < 2 ^ b.
Proof.
  intros Hb Hle.
  pose proof (header_bits_bound (packet_elements b st) 0 ltac:(lia)) as H.
  rewrite packet_elements_length in H by assumption. exact H.
Qed.

Lemma encode_element_spec (b : Z) (st : trial_state) :
  packet_inv source len_source i d0 b st -> 0 <= b < 8 -> src_pos st <> len_source ->
  exists st',
    encode_element source len_source i b st = Ok st' /\
    packet_inv source len_source i d0 (b + 1) st' /\
    header_pos st' = header_pos st /\
    out_pos st < out_pos st'.
Proof.
  intros [(Hd & Hlen & Hsrc & Hout2 & Hsum & Hall & Hfr & Hpar)
          (Hhp & Hout & Hcnt & Hbytes & Hhdr)] Hb Hne.
  destruct (config_cases i config) as (Hmc & Hlr & Hsh & _).
  pose proof (header_bits_packet b st ltac:(lia) Hcnt) as Hhb.
  unfold encode_element.
  destruct (find_match_total source len_source (max_copy_length_of i)
              (src_pos st) (lookback_range_of i)) as (l & s & Hfm).
  rewrite Hfm. cbn [bind].
  pose proof Hfm as Hfound.
  apply find_match_spec in Hfm; [|lia].
  destruct Hfm as (Hl & Hfit & _ & Hcase).
  pose proof (lookback_st_bounds (src_pos st) (lookback_range_of i)) as [_ Hst].
  rewrite Z.gtb_ltb.
  destruct (Z.ltb_spec 2 l) as [Hlong|Hshort].
  - stores.
    eexists. split; [reflexivity|]. split; [|cbn [header_pos out_pos]; lia].
    destruct Hcase as [(-> & _)|(Hin & _)]; [lia|].
    unfold packet_inv, top_inv, packet_content, packet_elements;
      cbn [done length src_pos header_pos out_pos emitted data].
    rewrite rev_firstn_cons by lia. fold (packet_elements b st).
    repeat split; try lia; try assumption.
    + rewrite total_consumed_cons. cbn [consumed]. lia.
    + constructor; [|exact Hall]. cbn [match_ok].
      split; [lia|]. split; [lia|]. apply land_shiftl_disjoint; lia.
    + intros k Hk. rewrite !poke_other by lia. apply Hfr. lia.
    + eapply parsed_match; eassumption.
    + cbn [List.length]. lia.
    + replace (Z.to_nat (out_pos st + 2 - header_pos st - 1))
        with (Z.to_nat (out_pos st - header_pos st - 1) + 2)%nat by lia.
      rewrite bytes_from_app, flat_map_app. f_equal.
      * rewrite <- Hbytes. apply bytes_from_ext. intros k Hk.
        rewrite !poke_other by lia. reflexivity.
      * rewrite bytes_from_two. cbn [flat_map element_bytes app].
        replace (header_pos st + 1 + Z.of_nat (Z.to_nat (out_pos st - header_pos st - 1)))
          with (out_pos st) by lia.
        rewrite poke_other, poke_same, poke_same by lia. reflexivity.
    + rewrite !poke_other, poke_same by lia.
      rewrite header_bits_app, packet_elements_length by (assumption || lia).
      cbn [header_bits]. rewrite Z.lor_0_r, Z.add_0_l, Hhdr.
      apply to_char_small.
      assert (0 <= Z.lor (header_bits 0 (packet_elements b st)) (Z.shiftl 1 b) < 2 ^ (b + 1)).
      { apply lor_lt_pow2; [lia| |].
        - split; [lia|]. apply Z.lt_trans with (2 ^ b); [lia|].
          apply Z.pow_lt_mono_r; lia.
        - rewrite Z.shiftl_1_l. split; [apply Z.pow_nonneg; lia|].
          apply Z.pow_lt_mono_r; lia. }
      assert (2 ^ (b + 1) <= 2 ^ 8) by (apply Z.pow_le_mono_r; lia).
      change (2 ^ 8) with 0x100 in *. lia.
  - rewrite load_ok by lia. cbn [bind]. stores.
    eexists. split; [reflexivity|]. split; [|cbn [header_pos out_pos]; lia].
    unfold packet_inv, top_inv, packet_content, packet_elements;
      cbn [done length src_pos header_pos out_pos emitted data].
    rewrite rev_firstn_cons by lia. fold (packet_elements b st).
    repeat split; try lia; try assumption.
    + rewrite total_consumed_cons. cbn [consumed]. lia.
    + constructor; [exact I|exact Hall].
    + intros k Hk. rewrite !poke_other by lia. apply Hfr. lia.
    + eapply parsed_literal; eassumption.
    + cbn [List.length]. lia.
    + replace (Z.to_nat (out_pos st + 1 - header_pos st - 1))
        with (Z.to_nat (out_pos st - header_pos st - 1) + 1)%nat by lia.
      rewrite bytes_from_app, flat_map_app. f_equal.
      * rewrite <- Hbytes. apply bytes_from_ext. intros k Hk.
        rewrite !poke_other by lia. reflexivity.
      * rewrite bytes_from_one. cbn [flat_map element_bytes app].
        replace (header_pos st + 1 + Z.of_nat (Z.to_nat (out_pos st - header_pos st - 1)))
          with (out_pos st) by lia.
        rewrite poke_same. reflexivity.
    + rewrite !poke_other by lia.
      rewrite header_bits_app. cbn [header_bits]. rewrite Z.lor_0_r. exact Hhdr.
Qed.

(** The relocation loop copies the packet three cells up, last cell first. *)
Lemma shift_addendum_spec (fuel : nat) :
  forall hp j d,
    (Z.to_nat (j + 1) < fuel)%nat -> 0 <= hp + 3 -> hp + 3 + j < capacity ->
    exists d',
      shift_addendum fuel hp j d = Ok d' /\
      forall k, d' k = if (hp + 3 <=? k) && (k <=? hp + 3 + j) then d (k - 3) else d k.
Proof.
  induction fuel as [|fuel IH]; intros hp j d Hfuel Hhp Hcap; [lia|].
  cbn [shift_addendum]. rewrite Z.geb_leb.
  destruct (Z.leb_spec 0 j) as [Hj|Hj].
  - stores.
    destruct (IH hp (j - 1) (poke d (hp + 3 + j) (d (hp + j))))
      as (d' & Hd' & Hk); try lia.
    exists d'. split; [exact Hd'|]. intros k. rewrite Hk. unfold poke.
    destruct (Z.leb_spec (hp + 3) k); destruct (Z.leb_spec k (hp + 3 + (j - 1)));
      destruct (Z.leb_spec k (hp + 3 + j)); cbn [andb]; try lia;
      destruct (Z.eqb_spec (k - 3) (hp + 3 + j)); destruct (Z.eqb_spec k (hp + 3 + j));
      try lia; try reflexivity.
    subst k. f_equal. lia.
  - exists d. split; [reflexivity|]. intros k.
    destruct (Z.leb_spec (hp + 3) k); destruct (Z.leb_spec k (hp + 3 + j));
      cbn [andb]; try lia; reflexivity.
Qed.

Lemma terminate_spec (b : Z) (st : trial_state) :
  2 <= header_pos st < 0x1000 ->
  header_pos st < out_pos st <= header_pos st + 15 ->
  exists d',
    terminate i b st =
      Ok (mkState d' (if b =? 0 then header_pos st + 1 else out_pos st + 4)
            (header_pos st) (src_pos st) (out_pos st) true (emitted st)) /\
    forall k, d' k = if b =? 0 then boundary_row i st k else addendum_row i b st k.
Proof.
  intros Hhp Hout. unfold terminate.
  destruct (Z.eqb_spec b 0) as [Hb|Hb].
  - stores. eexists. split; reflexivity.
  - stores.
    match goal with
    | |- context [shift_addendum ?f ?h ?j ?d] =>
        destruct (shift_addendum_spec f h j d) as (d2 & Hd2 & Hk);
          [lia | lia | unfold capacity; lia | rewrite Hd2]
    end.
    cbn [bind]. stores.
    eexists. split; [reflexivity|].
    intros k. unfold addendum_row, unused_bits, poke at 1 2 3 4 5 6. rewrite Hk.
    replace (header_pos st + 3 + (out_pos st - header_pos st - 1))
      with (out_pos st + 2) by lia.
    reflexivity.
Qed.

Lemma terminate_finished (b : Z) (st st' : trial_state) :
  packet_inv source len_source i d0 b st -> 0 <= b < 8 -> src_pos st = len_source ->
  terminate i b st = Ok st' ->
  finished source len_source i st' /\ header_pos st' = header_pos st /\ out_pos st' = out_pos st.
Proof.
  intros [(Hd & Hlen & Hsrc & Hout2 & Hsum & Hall & Hfr & Hpar)
          (Hhp & Hout & Hcnt & Hbytes & Hhdr)] Hb Hend Hterm.
  destruct (config_cases i config) as (_ & _ & _ & Htag).
  pose proof (header_bits_packet b st ltac:(lia) Hcnt) as Hhb.
  destruct (terminate_spec b st) as (d' & Hd' & Hk); [lia|lia|].
  rewrite Hd' in Hterm. inversion Hterm; subst st'; clear Hterm.
  rewrite Hend in Hpar.
  split; [|split; reflexivity].
  unfold finished; cbn [done length src_pos header_pos out_pos emitted data].
  destruct (Z.eqb_spec b 0) as [Hb0|Hb0].
  - repeat split; try lia; try assumption.
    + rewrite Hk. unfold boundary_row, poke. decide_cells.
      apply to_char_low. lia.
    + rewrite Hk. unfold boundary_row, poke. decide_cells.
      apply to_char_high. lia.
    + left. unfold boundary_layout; cbn [length header_pos data].
      split; [reflexivity|]. rewrite Hk. unfold boundary_row, poke. decide_cells.
      apply to_char_small. exact Htag.
  - repeat split; try lia; try assumption.
    + rewrite Hk. unfold addendum_row. decide_cells. apply to_char_low. lia.
    + rewrite Hk. unfold addendum_row. decide_cells. apply to_char_high. lia.
    + right. exists b. unfold addendum_layout, packet_elements;
        cbn [length header_pos out_pos data emitted].
      fold (packet_elements b st).
      split; [lia|]. split; [exact Hcnt|]. split; [reflexivity|].
      replace (Z.to_nat (out_pos st + 4 - header_pos st))
        with (3 + ((1 + Z.to_nat (out_pos st - header_pos st - 1)) + 1))%nat by lia.
      rewrite !bytes_from_app, bytes_from_three, !bytes_from_one.
      cbn [app]. rewrite <- Hbytes.
      replace (header_pos st + Z.of_nat 3 +
               Z.of_nat (1 + Z.to_nat (out_pos st - header_pos st - 1)))
        with (out_pos st + 3) by lia.
      replace (header_pos st + Z.of_nat 3 + Z.of_nat 1) with (header_pos st + 4) by lia.
      assert (Htail : bytes_from d' (header_pos st + 4)
                        (Z.to_nat (out_pos st - header_pos st - 1)) =
                      bytes_from (data st) (header_pos st + 1)
                        (Z.to_nat (out_pos st - header_pos st - 1))).
      { replace (header_pos st + 1) with (header_pos st + 4 - 3) by lia.
        apply bytes_from_shift. intros k Hrange.
        rewrite Hk. unfold addendum_row. decide_cells.
        rewrite poke_other by lia. reflexivity. }
      rewrite Htail. clear Htail.
      rewrite !Hk. unfold addendum_row.
      f_equal; [|f_equal; [|f_equal; [|f_equal; [|f_equal; f_equal]]]].
      * decide_cells. apply to_char_small.
        assert (0 <= Z.lor (tag_byte i) b < 2 ^ 8); [|change (2 ^ 8) with 0x100 in *; lia].
        apply lor_lt_pow2; [lia| |]; change (2 ^ 8) with 0x100; lia.
      * decide_cells. apply to_char_low. lia.
      * decide_cells. apply to_char_high. lia.
      * decide_cells. replace (header_pos st + Z.of_nat 3 - 3) with (header_pos st) by lia.
        rewrite poke_same, Hhdr. apply to_char_small.
        pose proof (unused_bits_bound b) as Hm.
        assert (2 ^ b <= 2 ^ 8) by (apply Z.pow_le_mono_r; lia).
        assert (0 <= Z.lor (header_bits 0 (packet_elements b st)) (unused_bits b) < 2 ^ 8);
          [|change (2 ^ 8) with 0x100 in *; lia].
        apply lor_lt_pow2; [lia| |]; change (2 ^ 8) with 0x100 in *; lia.
      * decide_cells. apply to_char_small. exact Htag.
Qed.

(** The bit loop: eight elements, or the termination. *)
Lemma packet_spec (fuel : nat) :
  forall b st,
    packet_inv source len_source i d0 b st -> 0 <= b <= 8 -> (Z.to_nat (8 - b) < fuel)%nat ->
    exists st',
      packet source len_source i fuel b st = Ok st' /\
      header_pos st' = header_pos st /\
      out_pos st <= out_pos st' /\
      (packet_inv source len_source i d0 8 st' \/ finished source len_source i st').
Proof.
  induction fuel as [|fuel IH]; intros b st Hinv Hb Hfuel; [lia|].
  cbn [packet].
  destruct (Z.ltb_spec b 8) as [Hlt|Hge].
  - destruct (Z.eqb_spec (src_pos st) len_source) as [Hend|Hmore].
    + destruct (terminate_spec b st) as (d' & Hd' & _).
      { destruct Hinv as [_ (? & _)]. lia. }
      { destruct Hinv as [_ (? & ? & _)]. lia. }
      destruct (terminate_finished b st _ Hinv ltac:(lia) Hend Hd') as (Hfin & Hh & Ho).
      eexists. split; [exact Hd'|]. split; [exact Hh|]. split; [lia|now right].
    + destruct (encode_element_spec b st Hinv ltac:(lia) Hmore)
        as (st1 & Hst1 & Hinv1 & Hh1 & Ho1).
      rewrite Hst1. cbn [bind].
      destruct (IH (b + 1) st1 Hinv1) as (st' & Hst' & Hh & Ho & Hcase); try lia.
      exists st'. split; [exact Hst'|]. split; [congruence|]. split; [lia|exact Hcase].
  - exists st. split; [reflexivity|]. split; [reflexivity|]. split; [lia|].
    left. replace 8 with b by lia. exact Hinv.
Qed.

(** The [while] loop ends within its fuel, by the [break] or by [done]. *)
Lemma encode_spec (best_size : Z) (fuel : nat) :
  best_size <= 0x1000 ->
  forall st,
    top_inv source len_source i d0 st -> (Z.to_nat (best_size - out_pos st) < fuel)%nat ->
    exists r,
      encode source len_source i best_size fuel st = Ok r /\
      ((top_inv source len_source i d0 r /\ best_size <= out_pos r) \/
       (finished source len_source i r /\ out_pos st <= header_pos r)).
Proof.
  intros HB. induction fuel as [|fuel IH]; intros st Hinv Hfuel; [lia|].
  cbn [encode].
  pose proof Hinv as (Hd & Hlen & Hsrc & Hout & Hsum & Hall & Hfr & Hpar).
  rewrite Hd. cbn [negb]. rewrite Z.geb_leb.
  destruct (Z.leb_spec best_size (out_pos st)) as [Hbrk|Hgo].
  - exists st. split; [reflexivity|]. left. split; assumption.
  - stores.
    match goal with
    | |- context [packet _ _ _ 9 0 ?s] =>
        destruct (packet_spec 9 0 s) as (st' & Hst' & Hh & Ho & Hcase)
    end.
    { unfold packet_inv, top_inv, packet_content, packet_elements;
        cbn [done length src_pos header_pos out_pos emitted data].
      repeat split; try lia; try assumption.
      - intros k Hk. rewrite poke_other by lia. apply Hfr. lia.
      - replace (out_pos st + 1 - out_pos st - 1) with 0 by lia. reflexivity.
      - apply poke_same. }
    { lia. }
    { cbn; lia. }
    rewrite Hst'. cbn [bind].
    cbn [header_pos out_pos] in Hh, Ho.
    destruct Hcase as [Hinv8|Hfin].
    + destruct (IH st' (proj1 Hinv8)) as (r & Hr & Hcase).
      { destruct Hinv8 as [_ (? & ? & _)]. lia. }
      exists r. split; [exact Hr|].
      destruct Hcase as [Habort|[Hfin Hle]]; [now left|right].
      split; [exact Hfin|].
      destruct Hinv8 as [_ (? & ? & _)]. lia.
    + exists st'. split.
      * destruct fuel as [|fuel]; [lia|]. cbn [encode].
        destruct Hfin as (-> & _). reflexivity.
      * right. split; [exact Hfin|]. lia.
Qed.

Lemma initial_top_inv (hp : Z) : top_inv source len_source i d0 (mkState d0 0x10000 hp 0 2 false []).
Proof.
  unfold top_inv; cbn [done length src_pos header_pos out_pos emitted data].
  repeat split; try lia; constructor.
Qed.

(** A trial returns: it aborts with the sentinel length, or finishes. *)
Lemma trial_spec (best_size hp : Z) :
  best_size <= 0x1000 ->
  exists r,
    trial source len_source i best_size d0 hp = Ok r /\
    ((top_inv source len_source i d0 r /\ best_size <= out_pos r) \/ finished source len_source i r).
Proof.
  intros HB. unfold trial, encode_fuel.
  destruct (encode_spec best_size (S (Z.to_nat best_size)) HB _ (initial_top_inv hp))
    as (r & Hr & Hcase).
  - cbn [out_pos]. lia.
  - exists r. split; [exact Hr|]. destruct Hcase as [H|[H _]]; [now left|now right].
Qed.

(** The result of the [while] loop does not depend on the fuel. *)
Lemma encode_fuel_irrelevant (best_size : Z) (f1 : nat) :
  forall f2 st r1 r2,
    encode source len_source i best_size f1 st = Ok r1 ->
    encode source len_source i best_size f2 st = Ok r2 ->
    r1 = r2.
Proof.
  induction f1 as [|f1 IH]; intros f2 st r1 r2 H1 H2; [discriminate|].
  destruct f2 as [|f2]; [discriminate|].
  cbn [encode] in H1, H2.
  destruct (negb (done st)); [|congruence].
  destruct (out_pos st >=? best_size); [congruence|].
  inv_bind H1. rewrite E in H2. cbn [bind] in H2.
  inv_bind H1. rewrite E0 in H2. cbn [bind] in H2.
  eapply IH; eassumption.
Qed.

(** What a returned [while] loop has established. *)
Lemma encode_post (best_size : Z) (fuel : nat) (st r : trial_state) :
  best_size <= 0x1000 -> top_inv source len_source i d0 st ->
  encode source len_source i best_size fuel st = Ok r ->
  (top_inv source len_source i d0 r /\ best_size <= out_pos r) \/
  (finished source len_source i r /\ out_pos st <= header_pos r).
Proof.
  intros HB Hinv Hr.
  destruct (encode_spec best_size (S (Z.to_nat (best_size - out_pos st))) HB st Hinv)
    as (r' & Hr' & Hcase); [lia|].
  rewrite (encode_fuel_irrelevant _ _ _ _ _ _ Hr Hr'). exact Hcase.
Qed.

(** Lowering the bound of the [while] loop either changes nothing or
    makes it stop at a packet start that the other run went through. *)
Lemma encode_tighten (B B' : Z) (fuel : nat) :
  B' <= B -> B <= 0x1000 ->
  forall st r,
    top_inv source len_source i d0 st ->
    encode source len_source i B fuel st = Ok r ->
    encode source len_source i B' fuel st = Ok r \/
    exists r',
      encode source len_source i B' fuel st = Ok r' /\
      top_inv source len_source i d0 r' /\ B' <= out_pos r' /\
      (top_inv source len_source i d0 r \/ (finished source len_source i r /\ out_pos r' <= header_pos r)).
Proof.
  intros HBB HB. induction fuel as [|fuel IH]; intros st r Hinv Hr; [discriminate|].
  pose proof (encode_post B (S fuel) st r HB Hinv Hr) as Hpost.
  cbn [encode] in Hr |- *.
  pose proof Hinv as (Hd & _).
  rewrite Hd in Hr |- *. cbn [negb] in Hr |- *. rewrite Z.geb_leb in Hr |- *.
  destruct (Z.leb_spec B' (out_pos st)) as [Hstop'|Hgo'].
  - destruct (Z.leb_spec B (out_pos st)) as [Hstop|Hgo]; [now left|].
    right. exists st. split; [reflexivity|]. split; [exact Hinv|]. split; [exact Hstop'|].
    destruct Hpost as [[H _]|H]; [now left|now right].
  - destruct (Z.leb_spec B (out_pos st)) as [Hstop|Hgo]; [lia|].
    inv_bind Hr. rewrite E. cbn [bind] in Hr |- *.
    inv_bind Hr. rewrite E0. cbn [bind].
    apply store_Ok in E. destruct E as [Hcell ->].
    destruct Hinv as (_ & Hlen & Hsrc & Hout & Hsum & Hall & Hfr & Hpar).
    match type of E0 with
    | packet _ _ _ 9 0 ?s = _ =>
        destruct (packet_spec 9 0 s) as (st' & Hst' & Hh & Ho & Hcase)
    end.
    { unfold packet_inv, top_inv, packet_content, packet_elements;
        cbn [done length src_pos header_pos out_pos emitted data].
      repeat split; try lia; try assumption.
      - intros k Hk. rewrite poke_other by lia. apply Hfr. lia.
      - replace (out_pos st + 1 - out_pos st - 1) with 0 by lia. reflexivity.
      - apply poke_same. }
    { lia. }
    { cbn; lia. }
    rewrite E0 in Hst'. inversion Hst'; subst st'; clear Hst'.
    destruct Hcase as [Hinv8|Hfin].
    + apply IH; [exact (proj1 Hinv8)|exact Hr].
    + left. destruct fuel as [|fuel]; [discriminate|].
      cbn [encode] in Hr |- *. destruct Hfin as (Hdone & _).
      rewrite Hdone in Hr |- *. exact Hr.
Qed.

End TrialFacts.

(** ** Inputs without a repeated triple

    When the three bytes at a position determine the position, no match
    of length three exists and every element of a trial is a literal.
    The long inputs of the statements below are of this kind; the
    section reduces a trial on them to a loop that never searches. *)

Section LiteralRuns.

Variable source : Z -> Z.
Variable len_source : Z.
Variable position_of : Z -> Z -> Z -> Z.

Hypothesis decodes :
  forall k, 0 <= k -> k + 2 < len_source ->
    position_of (source k) (source (k + 1)) (source (k + 2)) = k.

Lemma no_long_match (max_copy_length p lookback_range l s : Z) :
  0 < max_copy_length ->
  find_match source len_source max_copy_length p lookback_range = Ok (l, s) ->
  l <= 2.
Proof.
  intros Hmc Hfm. apply find_match_spec in Hfm; [|exact Hmc].
  destruct Hfm as (_ & _ & _ & [(-> & _)|(Hin & Hlen & _)]); [lia|].
  pose proof (lookback_st_bounds p lookback_range) as [Hst _].
  destruct (match_length_spec source len_source max_copy_length p s)
    as (c & Hc & _ & Hfit & Hpre); [lia|].
  rewrite Hlen in Hc. inversion Hc; subst c; clear Hc.
  destruct (Z.le_gt_cases l 2) as [Hle|Hgt]; [exact Hle|exfalso].
  destruct Hfit as [->|[_ Hfit]]; [lia|].
  pose proof (decodes s ltac:(lia) ltac:(lia)) as Hs.
  pose proof (decodes p ltac:(lia) ltac:(lia)) as Hp.
  pose proof (Hpre 0 ltac:(lia)) as H0.
  pose proof (Hpre 1 ltac:(lia)) as H1.
  pose proof (Hpre 2 ltac:(lia)) as H2.
  rewrite !Z.add_0_r in H0.
  rewrite H0, H1, H2, Hp in Hs. lia.
Qed.

Variable i : Z.
Hypothesis config : i = 0 \/ i = 1.

Lemma encode_element_literal (bit : Z) (st : trial_state) :
  encode_element source len_source i bit st = literal_element source len_source st.
Proof.
  unfold encode_element, literal_element.
  destruct (config_cases i config) as (Hmc & _).
  destruct (find_match_total source len_source (max_copy_length_of i)
              (src_pos st) (lookback_range_of i)) as (l & s & Hfm).
  rewrite Hfm. cbn [bind].
  apply no_long_match in Hfm; [|lia].
  rewrite Z.gtb_ltb. destruct (Z.ltb_spec 2 l); [lia|reflexivity].
Qed.

Lemma packet_literal (fuel : nat) :
  forall bit st, packet source len_source i fuel bit st = literal_packet source len_source i fuel bit st.
Proof.
  induction fuel as [|fuel IH]; intros bit st; cbn [packet literal_packet]; [reflexivity|].
  destruct (bit <? 8); [|reflexivity].
  destruct (src_pos st =? len_source); [reflexivity|].
  rewrite encode_element_literal.
  destruct (literal_element source len_source st); cbn [bind]; [apply IH|reflexivity].
Qed.

Lemma encode_literal (best_size : Z) (fuel : nat) :
  forall st, encode source len_source i best_size fuel st = literal_encode source len_source i best_size fuel st.
Proof.
  induction fuel as [|fuel IH]; intros st; cbn [encode literal_encode]; [reflexivity|].
  destruct (negb (done st)); [|reflexivity].
  destruct (out_pos st >=? best_size); [reflexivity|].
  destruct (store (data st) (out_pos st) 0); cbn [bind]; [|reflexivity].
  rewrite packet_literal.
  destruct (literal_packet source len_source i 9 0 _); cbn [bind]; [apply IH|reflexivity].
Qed.

Lemma trial_literal (best_size : Z) (d : row) (hp : Z) :
  trial source len_source i best_size d hp = literal_trial source len_source i best_size d hp.
Proof. unfold trial, literal_trial. apply encode_literal. Qed.

End LiteralRuns.

Lemma counter_decodes_spec (n : nat) :
  counter_decodes n = true ->
  forall k, 0 <= k -> k + 2 < Z.of_nat n + 2 ->
    counter_position (counter k) (counter (k + 1)) (counter (k + 2)) = k.
Proof.
  unfold counter_decodes. intros H k Hk0 Hk.
  rewrite forallb_forall in H. apply Z.eqb_eq. apply H.
  apply in_map_iff. exists (Z.to_nat k). split; [lia|]. apply in_seq. lia.
Qed.

Lemma counter_3640 : counter_decodes 3640 = true.
Proof. vm_compute. reflexivity. Qed.

(** ** The driver *)

Lemma compress_eq source len_source (cd : Z -> row) (t0 t1 : trial_state) :
  trial source len_source 0 0x1000 (cd 0) 0 = Ok t0 ->
  trial source len_source 1 (tighten 0x1000 (length t0)) (cd 1) (header_pos t0) = Ok t1 ->
  compress source len_source cd = Ok (frame (select t0 t1)).
Proof.
  intros H0 H1. unfold compress. rewrite H0. cbn [bind]. rewrite H1. reflexivity.
Qed.

Lemma tighten_le (len : Z) : tighten 0x1000 len <= 0x1000.
Proof. unfold tighten. destruct (Z.ltb_spec len 0x1000); lia. Qed.

Lemma frame_length (st : trial_state) :
  List.length (frame st) = Z.to_nat (length st).
Proof. apply bytes_from_length. Qed.

Lemma nth_bytes_from (d : row) (from : Z) (n k : nat) :
  (k < n)%nat -> nth k (bytes_from d from n) 0 = d (from + Z.of_nat k).
Proof.
  intros Hk. unfold bytes_from.
  rewrite (nth_indep _ 0 (d (from + Z.of_nat 0))) by now rewrite length_map, length_seq.
  rewrite (map_nth (fun j => d (from + Z.of_nat j)) (seq 0 n) 0%nat k).
  now rewrite seq_nth.
Qed.

Lemma skipn_bytes_from (d : row) (n m : nat) :
  skipn n (bytes_from d 0 (n + m)) = bytes_from d (Z.of_nat n) m.
Proof.
  rewrite bytes_from_app.
  rewrite skipn_app, bytes_from_length, Nat.sub_diag, skipn_all2
    by (rewrite bytes_from_length; lia).
  reflexivity.
Qed.

(** The two outcomes of a trial, by its recorded length. *)
Lemma trial_outcome source len_source (i best_size : Z) (d : row) (hp : Z)
      (st : trial_state) :
  0 <= len_source -> i = 0 \/ i = 1 -> best_size <= 0x1000 ->
  trial source len_source i best_size d hp = Ok st ->
  (done st = false /\ length st = 0x10000 /\ best_size <= out_pos st) \/
  (done st = true /\ header_pos st + 1 <= length st <= 0x1012).
Proof.
  intros Hlen Hi HB Hst.
  destruct (trial_spec source len_source i d Hlen Hi best_size hp HB)
    as (r & Hr & Hcase).
  rewrite Hst in Hr. inversion Hr; subst r; clear Hr.
  destruct Hcase as [[(Hd & Hl & _) Hout]|(Hd & _ & Hhp & _ & Hl & _)].
  - left. repeat split; assumption.
  - right. split; [exact Hd|]. lia.
Qed.

Lemma compress_total source len_source (cd : Z -> row) :
  0 <= len_source ->
  exists t0 t1,
    trial source len_source 0 0x1000 (cd 0) 0 = Ok t0 /\
    trial source len_source 1 (tighten 0x1000 (length t0)) (cd 1) (header_pos t0) = Ok t1 /\
    compress source len_source cd = Ok (frame (select t0 t1)).
Proof.
  intros Hlen.
  destruct (trial_spec source len_source 0 (cd 0) Hlen (or_introl eq_refl) 0x1000 0)
    as (t0 & H0 & _); [lia|].
  destruct (trial_spec source len_source 1 (cd 1) Hlen (or_intror eq_refl)
              (tighten 0x1000 (length t0)) (header_pos t0) (tighten_le _))
    as (t1 & H1 & _).
  exists t0, t1. split; [exact H0|]. split; [exact H1|].
  apply compress_eq; assumption.
Qed.

(** * The claims *)

(** The checks of the model are live: a start beyond the position reads
    past the input, and a write at the capacity is refused. *)
Example read_past_input :
  match_length (fun _ => 0) 3 34 0 1 = Fault ReadOutOfBounds.
Proof. reflexivity. Qed.

Example write_past_row (d : row) : store d 0x10000 0 = Fault WriteOutOfBounds.
Proof. reflexivity. Qed.

(** The seed cases A, B and D of the specification. *)
Example single_byte : compress_bytes zeros [0x41] = Ok [0; 0; 0xC1; 7; 0; 0xFE; 0x41; 0xC0].
Proof. reflexivity. Qed.

Example empty_input : compress_bytes zeros [] = Ok [0; 0; 0xC0].
Proof. reflexivity. Qed.

Example repeated_abc :
  compress_bytes zeros abcabc = Ok [0; 0; 0xC4; 11; 0; 0xF8; 65; 66; 67; 3; 0x30; 0xC0].
Proof. reflexivity. Qed.

(** The byte string of 3640 counter digits, and its prefix of 3639. *)
Lemma counter_decoded (n : Z) :
  n <= 3640 ->
  forall k, 0 <= k -> k + 2 < n ->
    counter_position (counter k) (counter (k + 1)) (counter (k + 2)) = k.
Proof.
  intros Hn k Hk0 Hk. apply (counter_decodes_spec 3640 counter_3640); [exact Hk0|].
  change (Z.of_nat 3640) with 3640. lia.
Qed.

Lemma low_bits_of_header (i a : Z) :
  i = 0 \/ i = 1 -> 1 <= a <= 7 -> Z.land (Z.lor (tag_byte i) a) 7 = a.
Proof.
  intros Hi Ha.
  assert (Hcases : a = 1 \/ a = 2 \/ a = 3 \/ a = 4 \/ a = 5 \/ a = 6 \/ a = 7) by lia.
  destruct Hi as [-> | ->];
    destruct Hcases as [->|[->|[->|[->|[->|[->| ->]]]]]]; reflexivity.
Qed.

(** C1 fails as stated: on the 3639 counter digits both trials start
    their last packet at [0x0FF8], below the bound, and finish it with
    seven literals; [compress] returns that frame of [0x1004] bytes and
    raises nothing. *)
Lemma C1_counterexample :
  exists f,
    compress counter 3639 zeros = Ok f /\
    0x1000 < Z.of_nat (List.length f).
Proof.
  destruct (compress_total counter 3639 zeros ltac:(lia)) as (t0 & t1 & H0 & H1 & Hc).
  assert (L0 : length_of (trial counter 3639 0 0x1000 (zeros 0) 0) = 0x1004).
  { rewrite (trial_literal counter 3639 counter_position
               (counter_decoded 3639 ltac:(lia)) 0 (or_introl eq_refl)).
    vm_compute. reflexivity. }
  rewrite H0 in L0. cbn [length_of] in L0.
  assert (Hb : tighten 0x1000 (length t0) = 0x1000) by (rewrite L0; reflexivity).
  rewrite Hb in H1.
  assert (L1 : length_of (trial counter 3639 1 0x1000 (zeros 1) (header_pos t0)) = 0x1004).
  { rewrite (trial_literal counter 3639 counter_position
               (counter_decoded 3639 ltac:(lia)) 1 (or_intror eq_refl)).
    vm_compute. reflexivity. }
  rewrite H1 in L1. cbn [length_of] in L1.
  exists (frame (select t0 t1)). split; [exact Hc|].
  rewrite frame_length. unfold select.
  destruct (Z.leb_spec (length t0) (length t1)); [rewrite L0|rewrite L1]; reflexivity.
Qed.

(** C1, as the code has it: [compress] always returns a buffer and has
    no error to raise; the buffer is at most [0x1012] bytes long when a
    trial finished, the check of the bound being made at packet starts
    only, and [0x10000] bytes long when both trials aborted. *)
Theorem C1_frame_length source len_source (cd : Z -> row) :
  0 <= len_source ->
  exists t0 t1,
    trial source len_source 0 0x1000 (cd 0) 0 = Ok t0 /\
    trial source len_source 1 (tighten 0x1000 (length t0)) (cd 1) (header_pos t0) = Ok t1 /\
    compress source len_source cd = Ok (frame (select t0 t1)) /\
    (done t0 = true \/ done t1 = true ->
       Z.of_nat (List.length (frame (select t0 t1))) <= 0x1012) /\
    (done t0 = false /\ done t1 = false ->
       Z.of_nat (List.length (frame (select t0 t1))) = 0x10000).
Proof.
  intros Hlen.
  destruct (compress_total source len_source cd Hlen) as (t0 & t1 & H0 & H1 & Hc).
  exists t0, t1. split; [exact H0|]. split; [exact H1|]. split; [exact Hc|].
  pose proof (trial_outcome source len_source 0 0x1000 (cd 0) 0 t0 Hlen
                (or_introl eq_refl) ltac:(lia) H0) as Hout0.
  pose proof (trial_outcome source len_source 1 _ (cd 1) (header_pos t0) t1 Hlen
                (or_intror eq_refl) (tighten_le _) H1) as Hout1.
  assert (Hhp0 : done t0 = true -> 2 <= header_pos t0).
  { intros Hd.
    destruct (trial_spec source len_source 0 (cd 0) Hlen (or_introl eq_refl) 0x1000 0)
      as (r & Hr & Hcase); [lia|].
    rewrite H0 in Hr. inversion Hr; subst r.
    destruct Hcase as [[(Hd' & _) _]|(_ & _ & Hhp & _)]; [congruence|lia]. }
  assert (Hhp1 : done t1 = true -> 2 <= header_pos t1).
  { intros Hd.
    destruct (trial_spec source len_source 1 (cd 1) Hlen (or_intror eq_refl)
                (tighten 0x1000 (length t0)) (header_pos t0) (tighten_le _))
      as (r & Hr & Hcase).
    rewrite H1 in Hr. inversion Hr; subst r.
    destruct Hcase as [[(Hd' & _) _]|(_ & _ & Hhp & _)]; [congruence|lia]. }
  rewrite frame_length. unfold select.
  split.
  - intros Hsome.
    destruct (Z.leb_spec (length t0) (length t1)) as [Hle|Hgt];
      destruct Hout0 as [(Hd0 & Hl0 & _)|(Hd0 & Hl0)];
      destruct Hout1 as [(Hd1 & Hl1 & _)|(Hd1 & Hl1)];
      try specialize (Hhp0 Hd0); try specialize (Hhp1 Hd1);
      try lia; destruct Hsome; congruence.
  - intros [Hd0 Hd1].
    destruct Hout0 as [(_ & Hl0 & _)|(Hd0' & _)]; [|congruence].
    destruct Hout1 as [(_ & Hl1 & _)|(Hd1' & _)]; [|congruence].
    destruct (Z.leb_spec (length t0) (length t1)); [rewrite Hl0|rewrite Hl1]; reflexivity.
Qed.

Lemma C1_witness :
  exists t0 t1,
    trial (of_bytes abcabc) 12 0 0x1000 (zeros 0) 0 = Ok t0 /\
    trial (of_bytes abcabc) 12 1 (tighten 0x1000 (length t0)) (zeros 1) (header_pos t0) = Ok t1 /\
    compress (of_bytes abcabc) 12 zeros = Ok (frame (select t0 t1)) /\
    (done t0 = true \/ done t1 = true ->
       Z.of_nat (List.length (frame (select t0 t1))) <= 0x1012) /\
    (done t0 = false /\ done t1 = false ->
       Z.of_nat (List.length (frame (select t0 t1))) = 0x10000).
Proof.
  apply (C1_frame_length (of_bytes abcabc) 12 zeros). lia.
Defined.

(** C2 fails as stated: in forty zero bytes, at position 2, the starts 0
    and 1 both give the full length 34; the loop breaks at start 0 and
    returns it. *)
Lemma C2_counterexample : ~ closest_start_wins (fun _ => 0) 40 0 2.
Proof.
  intros H.
  assert (H1 : 1 <= 0).
  { apply (H 34 0).
    - reflexivity.
    - vm_compute. intuition congruence.
    - reflexivity. }
  lia.
Qed.

(** C2, as the code has it: the finder returns a start of the window
    and the length the extend loop gives for that start, and this length
    is the greatest of the window; when it is below [max_copy_length]
    the returned start is the largest start that reaches it, and when it
    is [max_copy_length] the returned start is the smallest one, the
    scan having stopped there.  At position 0 the window is empty and
    the finder returns the length 0 and the start 0. *)
Theorem C2_tie_break source (len_source i p l s : Z) :
  i = 0 \/ i = 1 ->
  find_match source len_source (max_copy_length_of i) p (lookback_range_of i)
    = Ok (l, s) ->
  (forall s' c,
     lookback_st p (lookback_range_of i) <= s' < p ->
     match_length source len_source (max_copy_length_of i) p s' = Ok c ->
     c <= l) /\
  (p <= 0 -> l = 0 /\ s = 0) /\
  (0 < p ->
   lookback_st p (lookback_range_of i) <= s < p /\
   match_length source len_source (max_copy_length_of i) p s = Ok l /\
   (l < max_copy_length_of i ->
    forall s',
      lookback_st p (lookback_range_of i) <= s' < p ->
      match_length source len_source (max_copy_length_of i) p s' = Ok l ->
      s' <= s) /\
   (l = max_copy_length_of i ->
    forall s',
      lookback_st p (lookback_range_of i) <= s' < p ->
      match_length source len_source (max_copy_length_of i) p s' = Ok l ->
      s <= s')).
Proof.
  intros Hi Hfm.
  destruct (config_cases i Hi) as (Hmc & _).
  pose proof (lookback_st_bounds p (lookback_range_of i)) as [Hst0 _].
  assert (Hst : 0 < p -> lookback_st p (lookback_range_of i) < p).
  { intros Hp. unfold lookback_st.
    destruct Hi as [-> | ->];
      [change (lookback_range_of 0) with 2047|change (lookback_range_of 1) with 4095];
      match goal with |- context [?a >? 0] => destruct (Z.gtb_spec a 0) end; lia. }
  apply find_match_spec in Hfm; [|lia].
  destruct Hfm as (_ & _ & Hmax & Hcase).
  split; [exact Hmax|]. split.
  - intros Hp. destruct Hcase as [(-> & -> & _)|(Hin & _)]; [split; reflexivity|lia].
  - intros Hp. specialize (Hst Hp).
    destruct Hcase as [(_ & _ & Hempty)|(Hin & Hm & Hlast & Hfirst)]; [lia|].
    split; [exact Hin|]. split; [exact Hm|]. split.
    + intros Hlt s' Hwin Hs'.
      destruct (Z.le_gt_cases s' s) as [Hle|Hgt]; [exact Hle|].
      specialize (Hlast Hlt s' l ltac:(lia) Hs'). lia.
    + intros Heq s' Hwin Hs'.
      destruct (Z.le_gt_cases s s') as [Hle|Hgt]; [exact Hle|].
      specialize (Hfirst Heq s' l ltac:(lia) Hs'). lia.
Qed.

Lemma C2_witness :
  (forall s' c,
     lookback_st 4 (lookback_range_of 0) <= s' < 4 ->
     match_length (of_bytes [1; 2; 1; 2; 1; 2; 9]) 7 (max_copy_length_of 0) 4 s' = Ok c ->
     c <= 2) /\
  (4 <= 0 -> 2 = 0 /\ 2 = 0) /\
  (0 < 4 ->
   lookback_st 4 (lookback_range_of 0) <= 2 < 4 /\
   match_length (of_bytes [1; 2; 1; 2; 1; 2; 9]) 7 (max_copy_length_of 0) 4 2 = Ok 2 /\
   (2 < max_copy_length_of 0 ->
    forall s',
      lookback_st 4 (lookback_range_of 0) <= s' < 4 ->
      match_length (of_bytes [1; 2; 1; 2; 1; 2; 9]) 7 (max_copy_length_of 0) 4 s' = Ok 2 ->
      s' <= 2) /\
   (2 = max_copy_length_of 0 ->
    forall s',
      lookback_st 4 (lookback_range_of 0) <= s' < 4 ->
      match_length (of_bytes [1; 2; 1; 2; 1; 2; 9]) 7 (max_copy_length_of 0) 4 s' = Ok 2 ->
      2 <= s')).
Proof.
  apply (C2_tie_break (of_bytes [1; 2; 1; 2; 1; 2; 9]) 7 0 4 2 2).
  - left; reflexivity.
  - reflexivity.
Defined.

(** C3 fails as stated: for the one-byte input [41] the frame ends with
    [C1 07 00 FE 41 C0]; the byte [FE], the relocated header of the
    partial packet, stands between the marker and the literal. *)
Lemma C3_counterexample :
  exists st,
    trial (of_bytes [0x41]) 1 0 0x1000 (zeros 0) 0 = Ok st /\
    done st = true /\
    Z.land (data st (header_pos st)) 7 = 1 /\
    skipn (Z.to_nat (header_pos st)) (frame st) = [0xC1; 7; 0; 0xFE; 0x41; 0xC0] /\
    addendum_as_claimed 0 st 1 = [0xC1; 7; 0; 0x41; 0xC0] /\
    skipn (Z.to_nat (header_pos st)) (frame st) <> addendum_as_claimed 0 st 1.
Proof.
  eexists. split; [vm_compute; reflexivity|].
  split; [reflexivity|]. split; [reflexivity|].
  split; [reflexivity|]. split; [reflexivity|].
  vm_compute. discriminate.
Qed.

(** C3, as the code has it: when a trial ends after [a > 0] elements of
    a packet, the frame from the addendum position on, the position its
    first two bytes give, is the header byte [T | a], the two bytes of
    [out_pos + 3], low byte first, then the header byte of the partial
    packet with its unused high bits set, then the [a] elements in order,
    then [T]. *)
Theorem C3_addendum_layout
    source len_source (i best_size : Z) (d : row) (hp : Z) (st : trial_state) :
  0 <= len_source -> i = 0 \/ i = 1 -> best_size <= 0x1000 ->
  trial source len_source i best_size d hp = Ok st ->
  done st = true ->
  Z.land (data st (header_pos st)) 7 <> 0 ->
  let a := Z.land (data st (header_pos st)) 7 in
  header_pos st = 2 + (nth 0 (frame st) 0 + 0x100 * nth 1 (frame st) 0) /\
  Z.of_nat (List.length (packet_elements a st)) = a /\
  skipn (Z.to_nat (header_pos st)) (frame st) =
    [Z.lor (tag_byte i) a;
     (out_pos st + 3) mod 0x100;
     (out_pos st + 3) / 0x100;
     Z.lor (header_bits 0 (packet_elements a st)) (unused_bits a)]
    ++ flat_map (element_bytes i) (packet_elements a st)
    ++ [tag_byte i].
Proof.
  intros Hlen Hi HB Hst Hdone Hlow a.
  destruct (trial_spec source len_source i d Hlen Hi best_size hp HB)
    as (r & Hr & Hcase).
  rewrite Hst in Hr. inversion Hr; subst r; clear Hr.
  destruct Hcase as [[(Hd & _) _]|(_ & _ & Hhp & Hop & Hl & _ & _ & _ & Hb0 & Hb1 & Hlay)];
    [congruence|].
  destruct Hlay as [(_ & Htag)|(a' & Ha' & Hcnt & Hlen' & Hbytes)].
  { exfalso. apply Hlow. rewrite Htag. destruct Hi as [-> | ->]; reflexivity. }
  split.
  { unfold frame. rewrite !nth_bytes_from by lia.
    change (0 + Z.of_nat 0) with 0. change (0 + Z.of_nat 1) with 1.
    rewrite Hb0, Hb1.
    pose proof (Z.div_mod (header_pos st - 2) 0x100 ltac:(lia)). lia. }
  assert (Hhead : data st (header_pos st) = Z.lor (tag_byte i) a').
  { pose proof (f_equal (fun l => nth 0 l 0) Hbytes) as H0. cbn beta in H0.
    rewrite nth_bytes_from in H0 by lia.
    rewrite Z.add_0_r in H0. exact H0. }
  assert (Ha : a = a').
  { unfold a. rewrite Hhead. apply low_bits_of_header; assumption. }
  rewrite Ha. split.
  { apply packet_elements_length; [lia|exact Hcnt]. }
  rewrite <- Hbytes. unfold frame.
  replace (Z.to_nat (length st))
    with (Z.to_nat (header_pos st) + Z.to_nat (length st - header_pos st))%nat by lia.
  rewrite skipn_bytes_from. f_equal. lia.
Qed.

Lemma C3_witness :
  exists st,
    trial (of_bytes abcabc) 12 0 0x1000 (zeros 0) 0 = Ok st /\
    skipn (Z.to_nat (header_pos st)) (frame st) =
      [0xC4; 11; 0; 0xF8; 65; 66; 67; 3; 0x30; 0xC0] /\
    let a := Z.land (data st (header_pos st)) 7 in
    header_pos st = 2 + (nth 0 (frame st) 0 + 0x100 * nth 1 (frame st) 0) /\
    Z.of_nat (List.length (packet_elements a st)) = a /\
    skipn (Z.to_nat (header_pos st)) (frame st) =
      [Z.lor (tag_byte 0) a;
       (out_pos st + 3) mod 0x100;
       (out_pos st + 3) / 0x100;
       Z.lor (header_bits 0 (packet_elements a st)) (unused_bits a)]
      ++ flat_map (element_bytes 0) (packet_elements a st)
      ++ [tag_byte 0].
Proof.
  eexists. split; [vm_compute; reflexivity|]. split; [reflexivity|].
  apply (C3_addendum_layout (of_bytes abcabc) 12 0 0x1000 (zeros 0) 0).
  - lia.
  - left; reflexivity.
  - lia.
  - vm_compute; reflexivity.
  - reflexivity.
  - vm_compute. discriminate.
Defined.

(** C4: running the second trial with the bound lowered to the length
    of the first gives the same bytes as running both trials with the
    bound [0x1000]. *)
Theorem C4_tightening_preserves_output source len_source (cd : Z -> row) :
  0 <= len_source ->
  compress source len_source cd = compress_untightened source len_source cd.
Proof.
  intros Hlen.
  destruct (compress_total source len_source cd Hlen) as (t0 & t & H0 & Ht & ->).
  destruct (trial_spec source len_source 1 (cd 1) Hlen (or_intror eq_refl)
              0x1000 (header_pos t0) ltac:(lia)) as (u & Hu & Hucase).
  unfold compress_untightened. rewrite H0. cbn [bind]. rewrite Hu. cbn [bind].
  do 2 f_equal.
  assert (Hout0 : length t0 <= 0x10000).
  { destruct (trial_outcome source len_source 0 0x1000 (cd 0) 0 t0 Hlen
                (or_introl eq_refl) ltac:(lia) H0) as [(_ & Hl & _)|(_ & Hl)]; lia. }
  unfold tighten in Ht.
  destruct (Z.ltb_spec (length t0) 0x1000) as [Hshort|Hlong].
  2:{ rewrite Hu in Ht. inversion Ht. reflexivity. }
  unfold trial in Hu, Ht.
  destruct (encode_tighten source len_source 1 (cd 1) (or_intror eq_refl)
              0x1000 (length t0) (encode_fuel 0x1000) ltac:(lia) ltac:(lia)
              _ u (initial_top_inv source len_source 1 (cd 1) Hlen (header_pos t0)) Hu)
    as [Hsame|(r' & Hr' & Hinv' & Hstop & Hucase')].
  - rewrite (encode_fuel_irrelevant _ _ _ _ _ _ _ _ _ Ht Hsame). reflexivity.
  - rewrite (encode_fuel_irrelevant _ _ _ _ _ _ _ _ _ Ht Hr').
    destruct Hinv' as (_ & Hlen' & _).
    unfold select. rewrite Hlen'.
    destruct (Z.leb_spec (length t0) 0x10000) as [_|Hbad]; [|lia].
    destruct (Z.leb_spec (length t0) (length u)) as [_|Hless]; [reflexivity|].
    exfalso.
    destruct Hucase' as [(_ & Hl & _)|[(_ & _ & _ & _ & Hl & _) Hle]]; lia.
Qed.

Lemma C4_witness :
  compress (of_bytes abcabc) 12 zeros = compress_untightened (of_bytes abcabc) 12 zeros.
Proof.
  apply (C4_tightening_preserves_output (of_bytes abcabc) 12 zeros). lia.
Defined.

(** C5: when both trials abort at the bound, both recorded lengths stay
    at the sentinel [0x10000] and [compress] returns, without an error,
    the [0x10000] bytes of the row of trial 0, the one the selection
    picks; the cells 0 and 1 of that row and those from [out_pos] on were
    never written. *)
Theorem C5_both_trials_abort source len_source (cd : Z -> row) :
  0 <= len_source ->
  aborted (trial source len_source 0 0x1000 (cd 0) 0) = true ->
  (forall hp, aborted (trial source len_source 1 0x1000 (cd 1) hp) = true) ->
  exists t0 t1,
    trial source len_source 0 0x1000 (cd 0) 0 = Ok t0 /\
    trial source len_source 1 (tighten 0x1000 (length t0)) (cd 1) (header_pos t0) = Ok t1 /\
    length t0 = 0x10000 /\
    length t1 = 0x10000 /\
    compress source len_source cd = Ok (frame t0) /\
    Z.of_nat (List.length (frame t0)) = 0x10000 /\
    (forall k, 0 <= k < 2 \/ out_pos t0 <= k < 0x10000 ->
       nth (Z.to_nat k) (frame t0) 0 = cd 0 k).
Proof.
  intros Hlen Hab0 Hab1.
  destruct (compress_total source len_source cd Hlen) as (t0 & t1 & H0 & H1 & Hc).
  destruct (trial_spec source len_source 0 (cd 0) Hlen (or_introl eq_refl) 0x1000 0)
    as (r & Hr & Hcase); [lia|].
  rewrite H0 in Hr. inversion Hr; subst r; clear Hr.
  rewrite H0 in Hab0. cbn [aborted] in Hab0.
  destruct Hcase as [[(Hd0 & Hl0 & _ & Hout & _ & _ & Hfr) _]|(Hd0 & _)];
    [|rewrite Hd0 in Hab0; discriminate].
  assert (Hb : tighten 0x1000 (length t0) = 0x1000) by (rewrite Hl0; reflexivity).
  rewrite Hb in H1.
  specialize (Hab1 (header_pos t0)). rewrite H1 in Hab1. cbn [aborted] in Hab1.
  destruct (trial_outcome source len_source 1 0x1000 (cd 1) (header_pos t0) t1 Hlen
              (or_intror eq_refl) ltac:(lia) H1) as [(_ & Hl1 & _)|(Hd1 & _)];
    [|rewrite Hd1 in Hab1; discriminate].
  exists t0, t1. rewrite Hb.
  split; [exact H0|]. split; [exact H1|]. split; [exact Hl0|]. split; [exact Hl1|].
  split.
  { rewrite Hc. unfold select. rewrite Hl0, Hl1. reflexivity. }
  split.
  { rewrite frame_length, Hl0. reflexivity. }
  intros k Hk. unfold frame. rewrite nth_bytes_from by (rewrite Hl0; lia).
  rewrite Z.add_0_l, Z2Nat.id by lia. apply Hfr. lia.
Qed.

Lemma C5_witness :
  exists t0 t1,
    trial counter 3640 0 0x1000 (zeros 0) 0 = Ok t0 /\
    trial counter 3640 1 (tighten 0x1000 (length t0)) (zeros 1) (header_pos t0) = Ok t1 /\
    length t0 = 0x10000 /\
    length t1 = 0x10000 /\
    compress counter 3640 zeros = Ok (frame t0) /\
    Z.of_nat (List.length (frame t0)) = 0x10000 /\
    (forall k, 0 <= k < 2 \/ out_pos t0 <= k < 0x10000 ->
       nth (Z.to_nat k) (frame t0) 0 = zeros 0 k).
Proof.
  apply (C5_both_trials_abort counter 3640 zeros).
  - lia.
  - rewrite (trial_literal counter 3640 counter_position
               (counter_decoded 3640 ltac:(lia)) 0 (or_introl eq_refl)).
    vm_compute. reflexivity.
  - intros hp.
    rewrite (trial_literal counter 3640 counter_position
               (counter_decoded 3640 ltac:(lia)) 1 (or_intror eq_refl)).
    vm_compute. reflexivity.
Defined.

(** C6 fails as stated: the frame of the one-byte input [41] starts with
    [00 00], the main body length being [header_pos - 2 = 0], not with
    [01 00]. *)
Lemma C6_counterexample :
  exists f,
    compress_bytes zeros [0x41] = Ok f /\
    firstn 2 f = [0; 0] /\
    firstn 2 f <> [1; 0].
Proof.
  eexists. split; [vm_compute; reflexivity|]. split; [reflexivity|].
  cbn. discriminate.
Qed.

(** C6, as the code has it: whatever the stack held, [compress] of the
    one-byte input [41] is [00 00 C1 07 00 FE 41 C0]: the main body
    length 0, the addendum header [C1], the marker [07 00], the partial
    packet [FE 41] moved up by three, and the trailing [C0]. *)
Theorem C6_single_byte_frame (cd : Z -> row) :
  compress_bytes cd [0x41] = Ok [0; 0; 0xC1; 7; 0; 0xFE; 0x41; 0xC0].
Proof. vm_compute. reflexivity. Qed.

(** C7: in a trial that finishes, the source bytes consumed by the
    emitted elements, one for each literal and [best_len] for each match,
    add up to the length of the input. *)
Theorem C7_consumption_covers_input
    source len_source (i best_size : Z) (d : row) (hp : Z) (st : trial_state) :
  0 <= len_source -> i = 0 \/ i = 1 -> best_size <= 0x1000 ->
  trial source len_source i best_size d hp = Ok st ->
  done st = true ->
  total_consumed (emitted st) = len_source.
Proof.
  intros Hlen Hi HB Hst Hdone.
  destruct (trial_spec source len_source i d Hlen Hi best_size hp HB)
    as (r & Hr & Hcase).
  rewrite Hst in Hr. inversion Hr; subst r; clear Hr.
  destruct Hcase as [[(Hd & _) _]|(_ & _ & _ & _ & _ & Hsum & _)].
  - congruence.
  - exact Hsum.
Qed.

Lemma C7_witness :
  exists st,
    trial (of_bytes abcabc) 12 0 0x1000 (zeros 0) 0 = Ok st /\
    total_consumed (emitted st) = 12.
Proof.
  eexists. split; [vm_compute; reflexivity|].
  apply (C7_consumption_covers_input (of_bytes abcabc) 12 0 0x1000 (zeros 0) 0).
  - lia.
  - left; reflexivity.
  - lia.
  - vm_compute; reflexivity.
  - reflexivity.
Defined.

(** C8: every match a trial emits, under either configuration, has
    [1 <= offset <= lookback_range] and [3 <= length <= max_copy_length],
    and its offset shares no bit with the shifted length in the packed
    word; the elements are those the finder decided, a match carrying
    [src_pos - best_len_st] as its offset. *)
Theorem C8_matches_well_formed
    source len_source (i best_size : Z) (d : row) (hp : Z) (st : trial_state) :
  0 <= len_source -> i = 0 \/ i = 1 -> best_size <= 0x1000 ->
  trial source len_source i best_size d hp = Ok st ->
  Forall (match_ok i) (emitted st) /\
  parsed source len_source i (src_pos st) (emitted st).
Proof.
  intros Hlen Hi HB Hst.
  destruct (trial_spec source len_source i d Hlen Hi best_size hp HB)
    as (r & Hr & Hcase).
  rewrite Hst in Hr. inversion Hr; subst r; clear Hr.
  destruct Hcase as [[(_ & _ & _ & _ & _ & Hall & _ & Hpar) _]
                    |(_ & Hend & _ & _ & _ & _ & Hall & Hpar & _)].
  - split; assumption.
  - rewrite Hend. split; assumption.
Qed.

Lemma C8_witness :
  exists st,
    trial (of_bytes abcabc) 12 1 0x1000 (zeros 1) 0 = Ok st /\
    emitted st = [Match 3 9; Literal 67; Literal 66; Literal 65] /\
    Forall (match_ok 1) (emitted st) /\
    parsed (of_bytes abcabc) 12 1 (src_pos st) (emitted st).
Proof.
  eexists. split; [vm_compute; reflexivity|]. split; [reflexivity|].
  apply (C8_matches_well_formed (of_bytes abcabc) 12 1 0x1000 (zeros 1) 0).
  - lia.
  - right; reflexivity.
  - lia.
  - vm_compute; reflexivity.
Defined.

(** C9: the reads [source[start + cur_len]] and [source[src_pos + cur_len]]
    of the match-extend loop stay inside the input.  Where the guard
    [src_pos + cur_len < len_source] holds and [start] lies before
    [src_pos], both reads are in bounds; reads being checked in the
    model, a loop that returns has read in bounds only, and the loop
    returns for every start before the position, as does the finder. *)
Theorem C9_match_reads_in_bounds
    source (len_source max_copy_length p lookback_range : Z) :
  (forall start cur_len,
     0 <= start < p -> 0 <= cur_len -> p + cur_len < len_source ->
     load source len_source (start + cur_len) = Ok (source (start + cur_len)) /\
     load source len_source (p + cur_len) = Ok (source (p + cur_len))) /\
  (forall start, 0 <= start < p ->
     exists c, match_length source len_source max_copy_length p start = Ok c) /\
  (exists l s,
     find_match source len_source max_copy_length p lookback_range = Ok (l, s)).
Proof.
  split; [|split].
  - intros start cur_len Hs Hc Hguard. split; apply load_ok; lia.
  - intros start Hs.
    destruct (match_length_spec source len_source max_copy_length p start Hs)
      as (c & Hc & _).
    eauto.
  - apply find_match_total.
Qed.

(** C10: no write of a trial falls outside its row of [0x10000] cells.
    Writes are checked in the model, so a trial that returns has written
    in bounds only; every trial with a bound of at most [0x1000] returns,
    and so does [compress], whose bounds are [0x1000] and below. *)
Theorem C10_writes_in_bounds source len_source (cd : Z -> row) :
  0 <= len_source ->
  (forall i best_size hp,
     i = 0 \/ i = 1 -> best_size <= 0x1000 ->
     exists st, trial source len_source i best_size (cd i) hp = Ok st) /\
  (exists f, compress source len_source cd = Ok f).
Proof.
  intros Hlen. split.
  - intros i best_size hp Hi HB.
    destruct (trial_spec source len_source i (cd i) Hlen Hi best_size hp HB)
      as (r & Hr & _).
    eauto.
  - destruct (compress_total source len_source cd Hlen) as (t0 & t1 & _ & _ & H).
    eauto.
Qed.

Lemma C10_witness :
  (forall i best_size hp,
     i = 0 \/ i = 1 -> best_size <= 0x1000 ->
     exists st, trial (of_bytes abcabc) 12 i best_size (zeros i) hp = Ok st) /\
  (exists f, compress (of_bytes abcabc) 12 zeros = Ok f).
Proof.
  apply (C10_writes_in_bounds (of_bytes abcabc) 12 zeros). lia.
Defined.

(** * Further properties of the code *)

(** ** The match finder *)

Section ExtendStops.

Variable source : Z -> Z.
Variable len_source : Z.
Variable max_copy_length : Z.
Variable p : Z.

(** Why the [while] loop of lines 134 to 138 stops. *)
Lemma extend_stops (fuel : nat) :
  forall start c c',
    extend source len_source max_copy_length p fuel start c = Ok c' ->
    len_source <= p + c' \/ max_copy_length <= c' \/
    source (start + c') <> source (p + c').
Proof.
  induction fuel as [|fuel IH]; intros start c c' H; [discriminate|].
  cbn [extend] in H.
  destruct (Z.ltb_spec (p + c) len_source) as [Hin|Hout]; cbn [andb] in H.
  2:{ inversion H; subst. left; lia. }
  destruct (Z.ltb_spec c max_copy_length) as [Hmc|Hmc].
  2:{ inversion H; subst. right; left; lia. }
  inv_bind H. inv_bind H.
  apply load_Ok in E. apply load_Ok in E0. destruct E as [_ ->]. destruct E0 as [_ ->].
  destruct (Z.eqb_spec (source (start + c)) (source (p + c))) as [Heq|Hne].
  - eapply IH; eassumption.
  - inversion H; subst. right; right; exact Hne.
Qed.

End ExtendStops.

(** X1: the length the extend loop returns for a start before the
    position is the length of the longest common run of the two
    positions, capped by [max_copy_length] and by the end of the input:
    the bytes agree below it, and at it the input ends, the cap is
    reached or the bytes differ. *)
Theorem X1_match_length_longest
    source (len_source max_copy_length p start c : Z) :
  0 <= start < p -> 0 <= max_copy_length ->
  match_length source len_source max_copy_length p start = Ok c ->
  0 <= c <= max_copy_length /\
  (c = 0 \/ p + c <= len_source) /\
  (forall k, 0 <= k < c -> source (start + k) = source (p + k)) /\
  (c = max_copy_length \/ len_source <= p + c \/
   source (start + c) <> source (p + c)).
Proof.
  intros Hs Hmc Hc.
  destruct (match_length_spec source len_source max_copy_length p start Hs)
    as (c' & Hc' & H0 & Hfit & Hpre).
  rewrite Hc in Hc'. inversion Hc'; subst c'; clear Hc'.
  split; [destruct Hfit; lia|]. split; [destruct Hfit; lia|]. split; [exact Hpre|].
  unfold match_length in Hc. apply extend_stops in Hc.
  destruct Hc as [H|[H|H]]; [right; left; exact H| |right; right; exact H].
  left. destruct Hfit; lia.
Qed.

Lemma X1_witness :
  0 <= 2 <= 34 /\
  (2 = 0 \/ 4 + 2 <= 7) /\
  (forall k, 0 <= k < 2 ->
     of_bytes [1; 2; 1; 2; 1; 2; 9] (0 + k) = of_bytes [1; 2; 1; 2; 1; 2; 9] (4 + k)) /\
  (2 = 34 \/ 7 <= 4 + 2 \/
   of_bytes [1; 2; 1; 2; 1; 2; 9] (0 + 2) <> of_bytes [1; 2; 1; 2; 1; 2; 9] (4 + 2)).
Proof.
  apply (X1_match_length_longest (of_bytes [1; 2; 1; 2; 1; 2; 9]) 7 34 4 0 2).
  - lia.
  - lia.
  - reflexivity.
Defined.

(** X2: a match the finder returns is a real one: its start lies in the
    window before the position, its bytes are inside the input, and the
    [best_len] bytes from the start equal the [best_len] bytes from the
    position. *)
Theorem X2_found_match_is_real source (len_source i p l s : Z) :
  i = 0 \/ i = 1 ->
  find_match source len_source (max_copy_length_of i) p (lookback_range_of i)
    = Ok (l, s) ->
  0 < l ->
  0 <= s < p /\
  p - lookback_range_of i <= s /\
  l <= max_copy_length_of i /\
  p + l <= len_source /\
  (forall k, 0 <= k < l -> source (s + k) = source (p + k)).
Proof.
  intros Hi Hfm Hl.
  destruct (config_cases i Hi) as (Hmc & _).
  apply find_match_spec in Hfm; [|lia].
  destruct Hfm as (Hle & Hfit & _ & [(-> & _)|(Hin & Hm & _)]); [lia|].
  pose proof (lookback_st_bounds p (lookback_range_of i)) as [Hst0 Hst].
  destruct (match_length_spec source len_source (max_copy_length_of i) p s)
    as (c & Hc & _ & _ & Hpre); [lia|].
  rewrite Hm in Hc. inversion Hc; subst c.
  repeat split; try lia. exact Hpre.
Qed.

Lemma X2_witness :
  0 <= 0 < 3 /\
  3 - lookback_range_of 0 <= 0 /\
  9 <= max_copy_length_of 0 /\
  3 + 9 <= 12 /\
  (forall k, 0 <= k < 9 -> of_bytes abcabc (0 + k) = of_bytes abcabc (3 + k)).
Proof.
  apply (X2_found_match_is_real (of_bytes abcabc) 12 0 3 9 0).
  - left; reflexivity.
  - reflexivity.
  - lia.
Defined.

(** A common run of a start and the position is not longer than what the
    extend loop returns for that start. *)
Lemma match_length_covers source (len_source max_copy_length p start c m : Z) :
  0 <= start < p ->
  match_length source len_source max_copy_length p start = Ok c ->
  0 <= m <= max_copy_length -> p + m <= len_source ->
  (forall k, 0 <= k < m -> source (start + k) = source (p + k)) ->
  m <= c.
Proof.
  intros Hs Hc Hm Hfit Hrun.
  destruct (match_length_spec source len_source max_copy_length p start Hs)
    as (c' & Hc' & H0 & _).
  rewrite Hc in Hc'. inversion Hc'; subst c'; clear Hc'.
  unfold match_length in Hc. apply extend_stops in Hc.
  destruct Hc as [H|[H|H]]; [lia|lia|].
  destruct (Z.le_gt_cases m c) as [Hle|Hgt]; [exact Hle|].
  exfalso. apply H, Hrun. lia.
Qed.

(** X3: the finder misses nothing: [best_len] is at least the length of
    every run, within [max_copy_length] and the input, that a start of
    the window shares with the position.  An element written as a
    literal therefore has no three bytes to copy in its window. *)
Theorem X3_finder_misses_nothing source (len_source i p l s s' m : Z) :
  i = 0 \/ i = 1 ->
  find_match source len_source (max_copy_length_of i) p (lookback_range_of i)
    = Ok (l, s) ->
  0 <= s' < p -> p - lookback_range_of i <= s' ->
  0 <= m <= max_copy_length_of i -> p + m <= len_source ->
  (forall k, 0 <= k < m -> source (s' + k) = source (p + k)) ->
  m <= l.
Proof.
  intros Hi Hfm Hs' Hwin Hm Hfit Hrun.
  destruct (config_cases i Hi) as (Hmc & _).
  apply find_match_spec in Hfm; [|lia].
  destruct Hfm as (_ & _ & Hmax & _).
  destruct (match_length_spec source len_source (max_copy_length_of i) p s' Hs')
    as (c & Hc & _).
  pose proof (match_length_covers source len_source (max_copy_length_of i) p s' c m
                Hs' Hc Hm Hfit Hrun) as Hcover.
  assert (Hin : lookback_st p (lookback_range_of i) <= s' < p).
  { unfold lookback_st. destruct (p - lookback_range_of i >? 0); lia. }
  specialize (Hmax s' c Hin Hc). lia.
Qed.

Lemma X3_witness :
  find_match (of_bytes abcabc) 12 (max_copy_length_of 0) 3 (lookback_range_of 0)
    = Ok (9, 0) /\
  5 <= 9.
Proof.
  split; [reflexivity|].
  apply (X3_finder_misses_nothing (of_bytes abcabc) 12 0 3 9 0 0 5).
  - left; reflexivity.
  - reflexivity.
  - lia.
  - vm_compute; discriminate.
  - vm_compute; intuition discriminate.
  - lia.
  - intros k Hk.
    assert (Hc : k = 0 \/ k = 1 \/ k = 2 \/ k = 3 \/ k = 4) by lia.
    intuition (subst; reflexivity).
Defined.

(** ** What the log stands for *)

Lemma copy_back_source source (n : nat) :
  forall p o,
    1 <= o <= p ->
    (forall k, 0 <= k < Z.of_nat n -> source (p - o + k) = source (p + k)) ->
    copy_back n (Z.to_nat o) (bytes_from source 0 (Z.to_nat p)) =
    bytes_from source 0 (Z.to_nat (p + Z.of_nat n)).
Proof.
  induction n as [|n IH]; intros p o Ho Hrun.
  - cbn [copy_back]. now rewrite Z.add_0_r.
  - cbn [copy_back]. rewrite bytes_from_length.
    rewrite nth_bytes_from by lia.
    replace (0 + Z.of_nat (Z.to_nat p - Z.to_nat o)) with (p - o + 0) by lia.
    rewrite (Hrun 0) by lia.
    replace (bytes_from source 0 (Z.to_nat p) ++ [source (p + 0)])
      with (bytes_from source 0 (Z.to_nat (p + 1))).
    + rewrite IH; [f_equal; lia|lia|].
      intros k Hk. replace (p + 1 - o + k) with (p - o + (k + 1)) by lia.
      replace (p + 1 + k) with (p + (k + 1)) by lia. apply Hrun. lia.
    + replace (Z.to_nat (p + 1)) with (Z.to_nat p + 1)%nat by lia.
      rewrite bytes_from_app, bytes_from_one. do 3 f_equal. lia.
Qed.

Lemma parsed_expand source (len_source i p : Z) (l : list element) :
  i = 0 \/ i = 1 ->
  parsed source len_source i p l ->
  0 <= p /\ expand l = bytes_from source 0 (Z.to_nat p).
Proof.
  intros Hi H. induction H as [|p l bl bs H [Hp IH] Hfm Hbl|p l bl bs H [Hp IH] Hfm Hbl].
  - split; [lia|reflexivity].
  - split; [lia|]. unfold expand in *. cbn [fold_right expand_element]. rewrite IH.
    replace (Z.to_nat (p + 1)) with (Z.to_nat p + 1)%nat by lia.
    rewrite bytes_from_app, bytes_from_one. do 3 f_equal. lia.
  - destruct (config_cases i Hi) as (Hmc & _).
    pose proof Hfm as Hspec. apply find_match_spec in Hspec; [|lia].
    destruct Hspec as (Hle & _ & _ & [(-> & _)|(Hin & Hm & _)]); [lia|].
    pose proof (lookback_st_bounds p (lookback_range_of i)) as [Hst0 Hst].
    destruct (match_length_spec source len_source (max_copy_length_of i) p bs)
      as (c & Hc & _ & _ & Hpre); [lia|].
    rewrite Hm in Hc. inversion Hc; subst c.
    split; [lia|]. unfold expand in *. cbn [fold_right expand_element]. rewrite IH.
    rewrite copy_back_source.
    + f_equal. lia.
    + lia.
    + intros k Hk. replace (p - (p - bs) + k) with (bs + k) by lia. apply Hpre. lia.
Qed.

(** X4: the elements a trial has emitted stand for the bytes it has
    consumed: appending each literal and copying each match back from
    what is already produced gives the first [src_pos] bytes of the
    input, and the whole input once the trial is done. *)
Theorem X4_log_expands_to_input
    source len_source (i best_size : Z) (d : row) (hp : Z) (st : trial_state) :
  0 <= len_source -> i = 0 \/ i = 1 -> best_size <= 0x1000 ->
  trial source len_source i best_size d hp = Ok st ->
  expand (emitted st) = bytes_from source 0 (Z.to_nat (src_pos st)) /\
  (done st = true -> src_pos st = len_source).
Proof.
  intros Hlen Hi HB Hst.
  destruct (trial_spec source len_source i d Hlen Hi best_size hp HB)
    as (r & Hr & Hcase).
  rewrite Hst in Hr. inversion Hr; subst r; clear Hr.
  destruct Hcase as [[(Hd & _ & _ & _ & _ & _ & _ & Hpar) _]
                    |(_ & Hend & _ & _ & _ & _ & _ & Hpar & _)].
  - split; [|congruence]. eapply parsed_expand; eassumption.
  - split; [|intros _; exact Hend]. rewrite Hend.
    eapply parsed_expand; eassumption.
Qed.

Lemma X4_witness :
  exists st,
    trial (of_bytes abcabc) 12 0 0x1000 (zeros 0) 0 = Ok st /\
    emitted st = [Match 3 9; Literal 67; Literal 66; Literal 65] /\
    expand (emitted st) = abcabc /\
    expand (emitted st) = bytes_from (of_bytes abcabc) 0 (Z.to_nat (src_pos st)) /\
    (done st = true -> src_pos st = 12).
Proof.
  eexists. split; [vm_compute; reflexivity|]. split; [reflexivity|].
  split; [reflexivity|].
  apply (X4_log_expands_to_input (of_bytes abcabc) 12 0 0x1000 (zeros 0) 0).
  - lia.
  - left; reflexivity.
  - lia.
  - vm_compute; reflexivity.
Defined.

(** ** The packed word *)

Lemma packed_fields (n o x : Z) :
  0 <= n -> 0 <= o < 2 ^ n -> 0 <= x ->
  Z.land (Z.lor o (Z.shiftl x n)) (2 ^ n - 1) = o /\
  Z.shiftr (Z.lor o (Z.shiftl x n)) n = x.
Proof.
  intros Hn Ho Hx. split.
  - replace (2 ^ n - 1) with (Z.ones n) by (rewrite Z.ones_equiv; lia).
    rewrite Z.land_ones by lia.
    rewrite <- Z.land_ones, Z.land_lor_distr_l, !Z.land_ones by lia.
    rewrite Z.mod_small by lia.
    rewrite Z.shiftl_mul_pow2, Z.mod_mul by lia.
    apply Z.lor_0_r.
  - rewrite Z.shiftr_lor, Z.shiftr_shiftl_l, Z.sub_diag, Z.shiftl_0_r by lia.
    rewrite Z.shiftr_div_pow2, Z.div_small by lia.
    apply Z.lor_0_l.
Qed.

(** The packed word of a well-formed match and its two bytes. *)
Lemma match_word (i lookback best_len : Z) :
  i = 0 \/ i = 1 ->
  match_ok i (Match lookback best_len) ->
  let w := compr_stream_of i lookback best_len in
  0 <= w < 0x10000 /\
  element_bytes i (Match lookback best_len) = [w mod 0x100; w / 0x100] /\
  word_lookback i w = lookback /\
  word_length i w = best_len.
Proof.
  intros Hi (Hlb & Hbl & _) w.
  destruct (config_cases i Hi) as (Hmc & Hlr & Hsh & _).
  assert (Hpow : 0 < 2 ^ length_shift i) by (apply Z.pow_pos_nonneg; lia).
  destruct (packed_fields (length_shift i) lookback (best_len - 3)) as [Hlow Hhigh];
    [lia|lia|lia|].
  assert (Hw : 0 <= w < 0x10000).
  { unfold w, compr_stream_of. change 0x10000 with (2 ^ 16).
    apply lor_lt_pow2; [lia| |].
    - split; [lia|].
      destruct Hi as [-> | ->];
        [change (lookback_range_of 0) with 2047 in Hlb
        |change (lookback_range_of 1) with 4095 in Hlb]; lia.
    - rewrite Z.shiftl_mul_pow2 by lia.
      destruct Hi as [-> | ->];
        [change (max_copy_length_of 0) with 34 in Hbl; change (length_shift 0) with 11
        |change (max_copy_length_of 1) with 18 in Hbl; change (length_shift 1) with 12];
        lia. }
  split; [exact Hw|]. split.
  - cbn [element_bytes]. fold w. rewrite to_char_low, to_char_high by lia. reflexivity.
  - unfold word_lookback, word_length, w, compr_stream_of.
    rewrite Hlr, Hlow, Hhigh. split; [reflexivity|lia].
Qed.

(** X5: the two bytes of a well-formed match give back its fields: they
    are the low and the high byte of a word below [0x10000], whose bits
    under [lookback_range] are the offset and whose bits from
    [length_shift] up are the length less three. *)
Theorem X5_packed_word_round_trip (i lookback best_len : Z) :
  i = 0 \/ i = 1 ->
  match_ok i (Match lookback best_len) ->
  let w := compr_stream_of i lookback best_len in
  0 <= w < 0x10000 /\
  element_bytes i (Match lookback best_len) = [w mod 0x100; w / 0x100] /\
  word_lookback i w = lookback /\
  word_length i w = best_len.
Proof. exact (match_word i lookback best_len). Qed.

Lemma X5_witness :
  let w := compr_stream_of 0 3 9 in
  0 <= w < 0x10000 /\
  element_bytes 0 (Match 3 9) = [w mod 0x100; w / 0x100] /\
  word_lookback 0 w = 3 /\
  word_length 0 w = 9.
Proof.
  apply (X5_packed_word_round_trip 0 3 9).
  - left; reflexivity.
  - vm_compute. intuition congruence.
Defined.

(** ** Sizes *)

Lemma total_consumed_app (l l' : list element) :
  total_consumed (l ++ l') = total_consumed l + total_consumed l'.
Proof.
  induction l as [|e l IH]; [reflexivity|].
  cbn [app]. rewrite !total_consumed_cons, IH. lia.
Qed.

Lemma total_consumed_rev (l : list element) :
  total_consumed (rev l) = total_consumed l.
Proof.
  induction l as [|e l IH]; [reflexivity|].
  cbn [rev]. rewrite total_consumed_app, IH, !total_consumed_cons.
  unfold total_consumed at 2. cbn [fold_right]. lia.
Qed.

(** An element takes at most as many bytes as it consumes, and consumes
    at least one. *)
Lemma element_sizes (i : Z) (l : list element) :
  Forall (match_ok i) l ->
  Z.of_nat (List.length (flat_map (element_bytes i) l)) <= total_consumed l /\
  Z.of_nat (List.length l) <= total_consumed l /\
  (total_consumed l < 3 -> forallb is_literal l = true).
Proof.
  induction 1 as [|e l He _ (IH1 & IH2 & IH3)]; [cbn; lia|].
  rewrite total_consumed_cons. cbn [flat_map]. rewrite length_app.
  destruct e as [b|o n]; cbn [element_bytes consumed List.length forallb is_literal andb].
  - split; [lia|]. split; [lia|]. intros Hlt. apply IH3. lia.
  - destruct He as (_ & Hn & _). split; [lia|]. split; [lia|]. intros Hlt. lia.
Qed.

(** X6: a trial on an input of fewer than three bytes emits literals
    only, a match needing three bytes of input after the position. *)
Theorem X6_short_input_literals
    source len_source (i best_size : Z) (d : row) (hp : Z) (st : trial_state) :
  0 <= len_source < 3 -> i = 0 \/ i = 1 -> best_size <= 0x1000 ->
  trial source len_source i best_size d hp = Ok st ->
  forallb is_literal (emitted st) = true.
Proof.
  intros Hlen Hi HB Hst.
  destruct (trial_spec source len_source i d (proj1 Hlen) Hi best_size hp HB)
    as (r & Hr & Hcase).
  rewrite Hst in Hr. inversion Hr; subst r; clear Hr.
  destruct Hcase as [[(_ & _ & Hsrc & _ & Hsum & Hall & _) _]
                    |(_ & _ & _ & _ & _ & Hsum & Hall & _)];
    apply (element_sizes i _ Hall); lia.
Qed.

Lemma X6_witness :
  exists st,
    trial (of_bytes [7; 7]) 2 0 0x1000 (zeros 0) 0 = Ok st /\
    forallb is_literal (emitted st) = true.
Proof.
  eexists. split; [vm_compute; reflexivity|].
  apply (X6_short_input_literals (of_bytes [7; 7]) 2 0 0x1000 (zeros 0) 0).
  - lia.
  - left; reflexivity.
  - lia.
  - vm_compute; reflexivity.
Defined.

(** ** The layout of a finished frame *)

Lemma full_packets_prefix (i : Z) (n : nat) :
  forall l l',
    List.length l = (8 * n)%nat ->
    full_packets i n (l ++ l') = full_packets i n l.
Proof.
  induction n as [|n IH]; intros l l' Hl; [reflexivity|].
  cbn [full_packets].
  rewrite firstn_app, skipn_app.
  replace (8 - List.length l)%nat with 0%nat by lia.
  rewrite firstn_O, skipn_O, app_nil_r, IH; [reflexivity|].
  rewrite length_skipn. lia.
Qed.

Lemma full_packets_snoc (i : Z) (n : nat) :
  forall l p8,
    List.length l = (8 * n)%nat -> List.length p8 = 8%nat ->
    full_packets i (S n) (l ++ p8) = full_packets i n l ++ packet_bytes i p8.
Proof.
  induction n as [|n IH]; intros l p8 Hl Hp.
  - destruct l; [|discriminate]. cbn [app full_packets].
    rewrite firstn_all2 by lia. now rewrite app_nil_r.
  - change (full_packets i (S (S n)) (l ++ p8))
      with (packet_bytes i (firstn 8 (l ++ p8))
            ++ full_packets i (S n) (skipn 8 (l ++ p8))).
    rewrite firstn_app, skipn_app.
    replace (8 - List.length l)%nat with 0%nat by lia.
    rewrite firstn_O, skipn_O, app_nil_r, IH; [|rewrite length_skipn; lia|exact Hp].
    cbn [full_packets]. now rewrite app_assoc.
Qed.

Lemma Forall_firstn_skipn {A : Type} (P : A -> Prop) (n : nat) (l : list A) :
  Forall P l -> Forall P (firstn n l) /\ Forall P (skipn n l).
Proof.
  intros H. rewrite <- (firstn_skipn n l) in H. apply Forall_app in H. exact H.
Qed.

Lemma full_packets_size (i : Z) (n : nat) :
  forall l,
    Forall (match_ok i) l ->
    Z.of_nat (List.length (full_packets i n l)) + total_consumed (skipn (8 * n) l)
    <= Z.of_nat n + total_consumed l.
Proof.
  induction n as [|n IH]; intros l Hall.
  - change (skipn (8 * 0) l) with l. cbn [full_packets List.length]. lia.
  - cbn [full_packets]. unfold packet_bytes. rewrite length_app. cbn [List.length].
    replace (8 * S n)%nat with (8 * n + 8)%nat by lia.
    rewrite <- skipn_skipn.
    destruct (Forall_firstn_skipn _ 8 l Hall) as [Hall8 Hallrest].
    pose proof (IH (skipn 8 l) Hallrest) as Hrest.
    pose proof (element_sizes i (firstn 8 l) Hall8) as (Hfirst & _).
    pose proof (total_consumed_app (firstn 8 l) (skipn 8 l)) as Hsplit.
    rewrite firstn_skipn in Hsplit. lia.
Qed.

Lemma encode_element_effect source len_source (i b : Z) (st st' : trial_state) :
  encode_element source len_source i b st = Ok st' ->
  (exists e, emitted st' = e :: emitted st) /\
  (forall k, k < header_pos st -> k < out_pos st -> data st' k = data st k).
Proof.
  unfold encode_element. intros H. inv_bind H. destruct x as [bl bs].
  destruct (bl >? 2).
  - inv_bind H. inv_bind H. inv_bind H.
    apply store_Ok in E0, E1, E2.
    destruct E0 as [_ ->]. destruct E1 as [_ ->]. destruct E2 as [_ ->].
    inversion H; subst st'; cbn [emitted data].
    split; [eauto|]. intros k Hk1 Hk2. rewrite !poke_other by lia. reflexivity.
  - inv_bind H. inv_bind H. apply store_Ok in E1. destruct E1 as [_ ->].
    inversion H; subst st'; cbn [emitted data].
    split; [eauto|]. intros k Hk1 Hk2. rewrite !poke_other by lia. reflexivity.
Qed.

Section FrameLayout.

Variable source : Z -> Z.
Variable len_source : Z.
Variable i : Z.
Variable d0 : row.

Hypothesis len_source_nonneg : 0 <= len_source.
Hypothesis config : i = 0 \/ i = 1.

Lemma start_packet (st : trial_state) :
  top_inv source len_source i d0 st -> out_pos st < 0x1000 ->
  packet_inv source len_source i d0 0
    (mkState (poke (data st) (out_pos st) 0) (length st) (out_pos st)
       (src_pos st) (out_pos st + 1) (done st) (emitted st)).
Proof.
  intros (Hd & Hlen & Hsrc & Hout & Hsum & Hall & Hfr & Hpar) Hlt.
  unfold packet_inv, top_inv, packet_content, packet_elements;
    cbn [done length src_pos header_pos out_pos emitted data].
  repeat split; try lia; try assumption.
  - intros k Hk. rewrite poke_other by lia. apply Hfr. lia.
  - replace (out_pos st + 1 - out_pos st - 1) with 0 by lia. reflexivity.
  - apply poke_same.
Qed.

Lemma rev_split_packet (b : Z) (st : trial_state) :
  rev (emitted st) = rev (skipn (Z.to_nat b) (emitted st)) ++ packet_elements b st.
Proof.
  unfold packet_elements. rewrite <- rev_app_distr, firstn_skipn. reflexivity.
Qed.

(** The frame a termination leaves is the layout of the log. *)
Lemma terminate_frame (n : nat) (b : Z) (st st' : trial_state) :
  packet_inv source len_source i d0 b st -> body_inv i n b st ->
  0 <= b < 8 -> src_pos st = len_source ->
  terminate i b st = Ok st' ->
  frame st' = frame_of i (rev (emitted st')).
Proof.
  intros Hinv [Hcount Hbody] Hb Hend Hterm.
  destruct (terminate_finished source len_source i d0 config
              b st st' Hinv Hb Hend Hterm) as (Hfin & _ & _).
  destruct Hinv as [(Hd & Hlen & Hsrc & Hout2 & Hsum & Hall & Hfr & Hpar)
                    (Hhp & Hout & Hcnt & Hbytes & Hhdr)].
  destruct (config_cases i config) as (_ & _ & _ & Htag).
  destruct (terminate_spec i b st) as (d' & Hd' & Hk); [lia|lia|].
  rewrite Hd' in Hterm. inversion Hterm; subst st'; clear Hterm Hd'.
  destruct Hfin as (_ & _ & _ & _ & _ & _ & _ & _ & Hb0 & Hb1 & Hlay).
  unfold boundary_layout, addendum_layout in Hlay.
  cbn [done length src_pos header_pos out_pos emitted data] in *.
  assert (Hold : List.length (rev (skipn (Z.to_nat b) (emitted st))) = (8 * n)%nat).
  { rewrite length_rev, length_skipn. lia. }
  assert (Hcur : List.length (packet_elements b st) = Z.to_nat b).
  { pose proof (packet_elements_length b st ltac:(lia) Hcnt). lia. }
  assert (Hdiv : (List.length (rev (emitted st)) / 8)%nat = n).
  { rewrite length_rev, Hcount. symmetry.
    apply (Nat.div_unique _ 8 n (Z.to_nat b)); lia. }
  assert (Hsize : Z.of_nat (List.length (flat_map (element_bytes i) (packet_elements b st)))
                  = out_pos st - header_pos st - 1).
  { rewrite <- Hbytes, bytes_from_length. lia. }
  assert (Hlow : bytes_from d' 2 (Z.to_nat (header_pos st - 2)) =
                 full_packets i n (rev (emitted st))).
  { rewrite (rev_split_packet b st), full_packets_prefix by exact Hold.
    rewrite <- Hbody. apply bytes_from_ext. intros k Hrange. rewrite Hk.
    destruct (Z.eqb_spec b 0).
    - unfold boundary_row. rewrite !poke_other by lia. reflexivity.
    - unfold addendum_row. decide_cells. rewrite poke_other by lia. reflexivity. }
  assert (Hlen_body : Z.of_nat (List.length (full_packets i n (rev (emitted st)))) =
                      header_pos st - 2).
  { rewrite <- Hlow, bytes_from_length. lia. }
  unfold frame_of. cbv zeta. rewrite Hdiv, Hlen_body.
  rewrite (rev_split_packet b st) at 2 3.
  rewrite skipn_app, Hold, Nat.sub_diag, skipn_all2 by lia.
  cbn [skipn app]. rewrite Hsize.
  replace (header_pos st - 2 + (out_pos st - header_pos st - 1) + 6)
    with (out_pos st + 3) by lia.
  unfold frame; cbn [length data].
  destruct (Z.eq_dec b 0) as [Hzero|Hpos].
  - assert (Hbz : (b =? 0) = true) by (apply Z.eqb_eq; exact Hzero).
    rewrite Hbz in *.
    replace (Z.to_nat (header_pos st + 1))
      with (2 + (Z.to_nat (header_pos st - 2) + 1))%nat by lia.
    rewrite !bytes_from_app, bytes_from_two, bytes_from_one.
    change (0 + Z.of_nat 2) with 2. change (0 + 1) with 1.
    rewrite Hlow, Hb0, Hb1.
    replace (packet_elements b st) with (@nil element)
      by (destruct (packet_elements b st); [reflexivity|cbn in Hcur; lia]).
    cbn [terminator app]. do 4 f_equal.
    replace (2 + Z.of_nat (Z.to_nat (header_pos st - 2)))
      with (header_pos st) by lia.
    rewrite Hk. unfold boundary_row, poke. decide_cells.
    apply to_char_small. exact Htag.
  - assert (Hbz : (b =? 0) = false) by (apply Z.eqb_neq; exact Hpos).
    rewrite Hbz in *.
    destruct Hlay as [(Hbad & _)|(a & Ha & Hacnt & _ & Haddendum)]; [lia|].
    replace (Z.to_nat (out_pos st + 4))
      with (2 + (Z.to_nat (header_pos st - 2)
                 + Z.to_nat (out_pos st + 4 - header_pos st)))%nat by lia.
    rewrite !bytes_from_app, bytes_from_two.
    change (0 + Z.of_nat 2) with 2. change (0 + 1) with 1.
    rewrite Hlow, Hb0, Hb1.
    replace (2 + Z.of_nat (Z.to_nat (header_pos st - 2)))
      with (header_pos st) by lia.
    rewrite Haddendum.
    assert (Hhead : Z.lor (tag_byte i) a = Z.lor (tag_byte i) b).
    { pose proof (f_equal (fun l => nth 0 l 0) Haddendum) as H0. cbn beta in H0.
      rewrite nth_bytes_from in H0 by lia.
      rewrite Z.add_0_r, Hk in H0. unfold addendum_row in H0. cbn [nth app] in H0.
      rewrite <- H0. decide_cells. apply to_char_small.
      assert (0 <= Z.lor (tag_byte i) b < 2 ^ 8); [|change (2 ^ 8) with 0x100 in *; lia].
      apply lor_lt_pow2; [lia| |]; change (2 ^ 8) with 0x100; lia. }
    assert (Hab : a = b).
    { rewrite <- (low_bits_of_header i a config Ha),
              <- (low_bits_of_header i b config ltac:(lia)), Hhead. reflexivity. }
    subst a.
    unfold packet_elements at 1 2; cbn [emitted]. fold (packet_elements b st).
    destruct (packet_elements b st) as [|e tl] eqn:Hpe; [cbn in Hcur; lia|].
    unfold terminator. rewrite Hcur, Z2Nat.id by lia. reflexivity.
Qed.

Lemma packet_body (n : nat) (fuel : nat) :
  forall b st st',
    packet_inv source len_source i d0 b st -> body_inv i n b st ->
    0 <= b <= 8 ->
    packet source len_source i fuel b st = Ok st' ->
    (done st' = false -> body_inv i n 8 st') /\
    (done st' = true -> frame st' = frame_of i (rev (emitted st'))).
Proof.
  induction fuel as [|fuel IH]; intros b st st' Hinv Hbody Hb Hrun; [discriminate|].
  cbn [packet] in Hrun.
  destruct (Z.ltb_spec b 8) as [Hlt|Hge].
  - destruct (Z.eqb_spec (src_pos st) len_source) as [Hend|Hmore].
    + destruct (terminate_finished source len_source i d0 config
                  b st st' Hinv ltac:(lia) Hend Hrun) as ((Hdone & _) & _).
      split; [congruence|]. intros _.
      apply (terminate_frame n b st st' Hinv Hbody ltac:(lia) Hend Hrun).
    + destruct (encode_element_spec source len_source i d0 config
                  b st Hinv ltac:(lia) Hmore) as (st1 & Hst1 & Hinv1 & Hh1 & Ho1).
      rewrite Hst1 in Hrun. cbn [bind] in Hrun.
      destruct (encode_element_effect _ _ _ _ _ _ Hst1) as ((e & He) & Hkeep).
      apply (IH (b + 1) st1 st' Hinv1); [|lia|exact Hrun].
      destruct Hbody as [Hcount Hcells].
      destruct Hinv as [_ (Hhp & Hout & _)].
      unfold body_inv. rewrite He, Hh1.
      replace (Z.to_nat (b + 1)) with (S (Z.to_nat b)) by lia.
      cbn [List.length skipn]. split; [lia|].
      rewrite <- Hcells. apply bytes_from_ext. intros k Hk. apply Hkeep; lia.
  - inversion Hrun; subst st'. replace b with 8 in * by lia.
    split; [intros _; exact Hbody|].
    destruct Hinv as [(Hd & _) _]. congruence.
Qed.

Lemma encode_body (best_size : Z) (fuel : nat) :
  best_size <= 0x1000 ->
  forall n st r,
    top_inv source len_source i d0 st -> top_body i n st ->
    encode source len_source i best_size fuel st = Ok r ->
    (done r = false -> exists n', top_body i n' r) /\
    (done r = true -> frame r = frame_of i (rev (emitted r))).
Proof.
  intros HB. induction fuel as [|fuel IH]; intros n st r Hinv Hbody Hrun; [discriminate|].
  cbn [encode] in Hrun.
  pose proof Hinv as (Hd & Hlen & Hsrc & Hout & Hsum & Hall & Hfr & Hpar).
  rewrite Hd in Hrun. cbn [negb] in Hrun. rewrite Z.geb_leb in Hrun.
  destruct (Z.leb_spec best_size (out_pos st)) as [Hbrk|Hgo].
  { inversion Hrun; subst r. split; [eauto|congruence]. }
  inv_bind Hrun. apply store_Ok in E. destruct E as [_ ->].
  inv_bind Hrun. rename x into st'. rename E into Hpacket.
  pose proof (start_packet st Hinv ltac:(lia)) as Hinv0. rewrite Hd in Hinv0.
  assert (Hbody0 : body_inv i n 0
            (mkState (poke (data st) (out_pos st) 0) (length st) (out_pos st)
               (src_pos st) (out_pos st + 1) false (emitted st))).
  { destruct Hbody as [Hcount Hcells]. unfold body_inv; cbn [emitted data header_pos].
    change (Z.to_nat 0) with 0%nat. cbn [skipn]. split; [lia|].
    rewrite <- Hcells. apply bytes_from_ext. intros k Hk. apply poke_other. lia. }
  destruct (packet_body n 9 0 _ st' Hinv0 Hbody0 ltac:(lia) Hpacket) as [Hopen Hclosed].
  destruct (packet_spec source len_source i d0 config 9 0 _ Hinv0)
    as (st2 & Hst2 & Hh & Ho & Hcase); [lia|cbn; lia|].
  rewrite Hpacket in Hst2. inversion Hst2; subst st2; clear Hst2.
  cbn [header_pos out_pos] in Hh, Ho.
  destruct Hcase as [Hinv8|Hfin].
  - pose proof Hinv8 as [Htop8 (Hhp8 & Hout8 & Hcnt8 & Hbytes8 & Hhdr8)].
    pose proof Htop8 as (Hd8 & _).
    destruct (Hopen Hd8) as [Hcount8 Hcells8].
    apply (IH (S n) st' r Htop8); [|exact Hrun].
    unfold top_body. split; [change (Z.to_nat 8) with 8%nat in Hcount8; lia|].
    rewrite (rev_split_packet 8 st').
    rewrite full_packets_snoc.
    + rewrite <- Hcells8. unfold packet_bytes. rewrite <- Hhdr8, <- Hbytes8.
      replace (Z.to_nat (out_pos st' - 2))
        with (Z.to_nat (header_pos st' - 2)
              + (1 + Z.to_nat (out_pos st' - header_pos st' - 1)))%nat by lia.
      rewrite !bytes_from_app, bytes_from_one.
      replace (2 + Z.of_nat (Z.to_nat (header_pos st' - 2))) with (header_pos st') by lia.
      replace (header_pos st' + Z.of_nat 1) with (header_pos st' + 1) by lia.
      reflexivity.
    + rewrite length_rev, length_skipn. change (Z.to_nat 8) with 8%nat in *. lia.
    + pose proof (packet_elements_length 8 st' ltac:(lia) Hcnt8). lia.
  - pose proof Hfin as (Hdone & _).
    destruct fuel as [|fuel]; [discriminate|].
    cbn [encode] in Hrun. rewrite Hdone in Hrun. cbn [negb] in Hrun.
    inversion Hrun; subst r. split; [congruence|exact Hclosed].
Qed.

Lemma trial_body (best_size hp : Z) (st : trial_state) :
  best_size <= 0x1000 ->
  trial source len_source i best_size d0 hp = Ok st ->
  (done st = false -> exists n, top_body i n st) /\
  (done st = true -> frame st = frame_of i (rev (emitted st))).
Proof.
  intros HB Hst. unfold trial in Hst.
  eapply (encode_body best_size (encode_fuel best_size) HB 0%nat);
    [apply (initial_top_inv source len_source i d0 len_source_nonneg hp)| |exact Hst].
  unfold top_body; cbn [emitted data out_pos]. split; reflexivity.
Qed.

End FrameLayout.

(** X7: the frame of a trial that finishes is the layout of its elements
    and of nothing else: the main body length in two bytes, low byte
    first, the full packets of eight elements behind their header bytes,
    and the terminator with the elements left over; every byte of the
    frame has been written. *)
Theorem X7_frame_is_layout_of_log
    source len_source (i best_size : Z) (d : row) (hp : Z) (st : trial_state) :
  0 <= len_source -> i = 0 \/ i = 1 -> best_size <= 0x1000 ->
  trial source len_source i best_size d hp = Ok st ->
  done st = true ->
  frame st = frame_of i (rev (emitted st)).
Proof.
  intros Hlen Hi HB Hst Hdone.
  apply (trial_body source len_source i d Hlen Hi best_size hp st HB Hst). exact Hdone.
Qed.

Lemma X7_witness :
  exists st,
    trial (of_bytes abcabc) 12 0 0x1000 (zeros 0) 0 = Ok st /\
    frame_of 0 (rev (emitted st)) = [0; 0; 0xC4; 11; 0; 0xF8; 65; 66; 67; 3; 0x30; 0xC0] /\
    frame st = frame_of 0 (rev (emitted st)).
Proof.
  eexists. split; [vm_compute; reflexivity|]. split; [reflexivity|].
  apply (X7_frame_is_layout_of_log (of_bytes abcabc) 12 0 0x1000 (zeros 0) 0).
  - lia.
  - left; reflexivity.
  - lia.
  - vm_compute; reflexivity.
  - reflexivity.
Defined.

(** ** How long a frame gets *)

Lemma terminator_size (i marker : Z) (tl : list element) :
  Forall (match_ok i) tl ->
  Z.of_nat (List.length (terminator i marker tl)) <= 5 + total_consumed tl.
Proof.
  intros Hall. pose proof (element_sizes i tl Hall) as (Hbytes & Hcount & _).
  destruct tl as [|e tl]; [cbn in *; lia|].
  unfold terminator. rewrite length_app, length_app. cbn [List.length].
  cbn [List.length] in Hcount. lia.
Qed.

Lemma frame_of_size (i : Z) (l : list element) :
  Forall (match_ok i) l ->
  Z.of_nat (List.length (frame_of i l))
  <= total_consumed l + total_consumed l / 8 + 7.
Proof.
  intros Hall. unfold frame_of. cbv zeta.
  set (n := (List.length l / 8)%nat).
  rewrite length_app. cbn [List.length]. rewrite length_app.
  pose proof (full_packets_size i n l Hall) as Hbody.
  destruct (Forall_firstn_skipn _ (8 * n) l Hall) as [_ Hrest].
  pose proof (terminator_size i
                (Z.of_nat (List.length (full_packets i n l))
                 + Z.of_nat (List.length (flat_map (element_bytes i) (skipn (8 * n) l))) + 6)
                (skipn (8 * n) l) Hrest) as Htail.
  pose proof (element_sizes i l Hall) as (_ & Hcount & _).
  assert (Hn : Z.of_nat n <= total_consumed l / 8).
  { unfold n. rewrite Nat2Z.inj_div. apply Z.div_le_mono; lia. }
  lia.
Qed.

Lemma finished_size source len_source (i best_size : Z) (d : row) (hp : Z)
      (st : trial_state) :
  0 <= len_source -> i = 0 \/ i = 1 -> best_size <= 0x1000 ->
  trial source len_source i best_size d hp = Ok st ->
  done st = true ->
  Forall (match_ok i) (rev (emitted st)) /\
  total_consumed (rev (emitted st)) = len_source /\
  frame st = frame_of i (rev (emitted st)) /\
  3 <= length st <= len_source + len_source / 8 + 7.
Proof.
  intros Hlen Hi HB Hst Hdone.
  destruct (trial_spec source len_source i d Hlen Hi best_size hp HB)
    as (r & Hr & Hcase).
  rewrite Hst in Hr. inversion Hr; subst r; clear Hr.
  destruct Hcase as [[(Hd & _) _]|(_ & _ & Hhp & _ & Hl & Hsum & Hall & _)];
    [congruence|].
  pose proof (proj2 (trial_body source len_source i d Hlen Hi best_size hp st HB Hst) Hdone)
    as Hframe.
  apply Forall_rev in Hall.
  assert (Hsum' : total_consumed (rev (emitted st)) = len_source)
    by (rewrite total_consumed_rev; exact Hsum).
  split; [exact Hall|]. split; [exact Hsum'|]. split; [exact Hframe|].
  split; [lia|].
  pose proof (frame_of_size i _ Hall) as Hsize.
  rewrite <- Hframe, frame_length, Hsum' in Hsize. lia.
Qed.

(** X8: a frame is never much longer than its input: a trial that
    finishes on [len_source] bytes records a length of at most
    [len_source + len_source / 8 + 7], one header byte for every eight
    elements, at most one byte more than it consumes for each element,
    and seven bytes around them. *)
Theorem X8_frame_length_bound
    source len_source (i best_size : Z) (d : row) (hp : Z) (st : trial_state) :
  0 <= len_source -> i = 0 \/ i = 1 -> best_size <= 0x1000 ->
  trial source len_source i best_size d hp = Ok st ->
  done st = true ->
  3 <= length st <= len_source + len_source / 8 + 7 /\
  Z.of_nat (List.length (frame st)) = length st.
Proof.
  intros Hlen Hi HB Hst Hdone.
  destruct (finished_size source len_source i best_size d hp st Hlen Hi HB Hst Hdone)
    as (_ & _ & _ & Hbound).
  split; [exact Hbound|]. rewrite frame_length. lia.
Qed.

Lemma X8_witness :
  exists st,
    trial (of_bytes [1; 2; 3; 4; 5; 6; 7]) 7 0 0x1000 (zeros 0) 0 = Ok st /\
    length st = 14 /\
    3 <= length st <= 7 + 7 / 8 + 7 /\
    Z.of_nat (List.length (frame st)) = length st.
Proof.
  eexists. split; [vm_compute; reflexivity|]. split; [reflexivity|].
  apply (X8_frame_length_bound (of_bytes [1; 2; 3; 4; 5; 6; 7]) 7 0 0x1000 (zeros 0) 0).
  - lia.
  - left; reflexivity.
  - lia.
  - vm_compute; reflexivity.
  - reflexivity.
Defined.

(** A trial whose bound lies above [2 + len_source + len_source / 8]
    never meets it. *)
Lemma trial_finishes source len_source (i best_size : Z) (d : row) (hp : Z)
      (st : trial_state) :
  0 <= len_source -> i = 0 \/ i = 1 -> best_size <= 0x1000 ->
  2 + len_source + len_source / 8 < best_size ->
  trial source len_source i best_size d hp = Ok st ->
  done st = true.
Proof.
  intros Hlen Hi HB Hroom Hst.
  destruct (trial_spec source len_source i d Hlen Hi best_size hp HB)
    as (r & Hr & Hcase).
  rewrite Hst in Hr. inversion Hr; subst r; clear Hr.
  destruct Hcase as [[(Hd & _ & Hsrc & Hout & Hsum & Hall & _) Hstop]|(Hd & _)];
    [exfalso|exact Hd].
  destruct (proj1 (trial_body source len_source i d Hlen Hi best_size hp st HB Hst) Hd)
    as (n & Hcount & Hcells).
  apply Forall_rev in Hall.
  pose proof (full_packets_size i n _ Hall) as Hbody.
  rewrite skipn_all2 in Hbody by (rewrite length_rev; lia).
  rewrite <- Hcells, bytes_from_length, total_consumed_rev, Hsum in Hbody.
  change (total_consumed []) with 0 in Hbody.
  pose proof (element_sizes i _ Hall) as (_ & Hmany & _).
  rewrite length_rev, total_consumed_rev, Hsum, Hcount in Hmany.
  assert (Hn : Z.of_nat n <= len_source / 8).
  { apply Z.div_le_lower_bound; lia. }
  lia.
Qed.

(** X9: a trial aborts only on an input that could fill its bound: when
    [2 + len_source + len_source / 8] is below the bound the trial
    finishes.  Under the bound [0x1000] of the first trial this is every
    input of at most 3639 bytes. *)
Theorem X9_room_means_no_abort
    source len_source (i best_size : Z) (d : row) (hp : Z) :
  0 <= len_source -> i = 0 \/ i = 1 -> best_size <= 0x1000 ->
  2 + len_source + len_source / 8 < best_size ->
  exists st,
    trial source len_source i best_size d hp = Ok st /\
    done st = true /\
    length st <= len_source + len_source / 8 + 7.
Proof.
  intros Hlen Hi HB Hroom.
  destruct (trial_spec source len_source i d Hlen Hi best_size hp HB)
    as (st & Hst & _).
  pose proof (trial_finishes source len_source i best_size d hp st
                Hlen Hi HB Hroom Hst) as Hdone.
  destruct (finished_size source len_source i best_size d hp st Hlen Hi HB Hst Hdone)
    as (_ & _ & _ & Hbound).
  exists st. split; [exact Hst|]. split; [exact Hdone|]. lia.
Qed.

Lemma X9_witness :
  exists st,
    trial counter 3639 0 0x1000 (zeros 0) 0 = Ok st /\
    done st = true /\
    length st <= 3639 + 3639 / 8 + 7.
Proof.
  apply (X9_room_means_no_abort counter 3639 0 0x1000 (zeros 0) 0).
  - lia.
  - left; reflexivity.
  - lia.
  - reflexivity.
Defined.

(** ** What the uninitialised rows cannot change *)

Lemma shift_addendum_any (fuel : nat) :
  forall hp j d d' r,
    shift_addendum fuel hp j d = Ok r ->
    exists r', shift_addendum fuel hp j d' = Ok r'.
Proof.
  induction fuel as [|fuel IH]; intros hp j d d' r H; [discriminate|].
  cbn [shift_addendum] in H |- *.
  destruct (j >=? 0); [|eauto].
  inv_bind H. apply store_Ok in E. destruct E as [Hcell ->].
  rewrite store_ok by exact Hcell. cbn [bind]. eapply IH. exact H.
Qed.

Lemma terminate_control (i b : Z) (st st2 a : trial_state) :
  control st = control st2 ->
  terminate i b st = Ok a ->
  exists a2, terminate i b st2 = Ok a2 /\ control a = control a2.
Proof.
  destruct st as [d l hp sp op dn em]. destruct st2 as [d2 l2 hp2 sp2 op2 dn2 em2].
  unfold control; cbn [length header_pos src_pos out_pos done emitted].
  intros Hc Hrun. inversion Hc; subst l2 hp2 sp2 op2 dn2 em2; clear Hc.
  unfold terminate in *. cbn [data length header_pos src_pos out_pos done emitted] in *.
  inv_bind Hrun. destruct x as [d1 len1].
  inv_bind Hrun. inv_bind Hrun.
  apply store_Ok in E0, E1. destruct E0 as [Hc0 _]. destruct E1 as [Hc1 _].
  inversion Hrun; subst a; clear Hrun.
  destruct (b =? 0).
  - inv_bind E. apply store_Ok in E0. destruct E0 as [Hc2 _].
    inversion E; subst d1 len1; clear E.
    stores. eexists. split; reflexivity.
  - inv_bind E. inv_bind E. inv_bind E. inv_bind E. inv_bind E. inv_bind E.
    apply store_Ok in E0, E2, E3, E4, E5.
    destruct E0 as [Hc2 _]. destruct E2 as [Hc3 _]. destruct E3 as [Hc4 _].
    destruct E4 as [Hc5 _]. destruct E5 as [Hc6 _].
    inversion E; subst d1 len1; clear E.
    stores.
    match goal with
    | |- context [shift_addendum ?f ?h ?j ?dd] =>
        destruct (shift_addendum_any f h j _ dd _ E1) as (r' & Hr'); rewrite Hr'
    end.
    cbn [bind]. stores. eexists. split; reflexivity.
Qed.

Lemma encode_element_control source len_source (i b : Z) (st st2 a : trial_state) :
  control st = control st2 ->
  encode_element source len_source i b st = Ok a ->
  exists a2,
    encode_element source len_source i b st2 = Ok a2 /\ control a = control a2.
Proof.
  destruct st as [d l hp sp op dn em]. destruct st2 as [d2 l2 hp2 sp2 op2 dn2 em2].
  unfold control; cbn [length header_pos src_pos out_pos done emitted].
  intros Hc Hrun. inversion Hc; subst l2 hp2 sp2 op2 dn2 em2; clear Hc.
  unfold encode_element in *.
  cbn [data length header_pos src_pos out_pos done emitted] in *.
  inv_bind Hrun. rewrite E. cbn [bind]. destruct x as [bl bs].
  destruct (bl >? 2).
  - inv_bind Hrun. inv_bind Hrun. inv_bind Hrun.
    apply store_Ok in E0, E1, E2.
    destruct E0 as [Hc0 _]. destruct E1 as [Hc1 _]. destruct E2 as [Hc2 _].
    inversion Hrun; subst a; clear Hrun.
    stores. eexists. split; reflexivity.
  - inv_bind Hrun. inv_bind Hrun. apply store_Ok in E1. destruct E1 as [Hc1 _].
    inversion Hrun; subst a; clear Hrun.
    rewrite E0. cbn [bind]. stores. eexists. split; reflexivity.
Qed.

Lemma packet_control source len_source (i : Z) (fuel : nat) :
  forall b st st2 a,
    control st = control st2 ->
    packet source len_source i fuel b st = Ok a ->
    exists a2,
      packet source len_source i fuel b st2 = Ok a2 /\ control a = control a2.
Proof.
  induction fuel as [|fuel IH]; intros b st st2 a Hc Hrun; [discriminate|].
  cbn [packet] in Hrun |- *.
  assert (Hsp : src_pos st2 = src_pos st) by (unfold control in Hc; congruence).
  rewrite Hsp.
  destruct (b <? 8).
  - destruct (src_pos st =? len_source).
    + eapply terminate_control; eassumption.
    + inv_bind Hrun.
      destruct (encode_element_control _ _ _ _ _ _ _ Hc E) as (x2 & Hx2 & Hcx).
      rewrite Hx2. cbn [bind]. eapply IH; eassumption.
  - inversion Hrun; subst a. eauto.
Qed.

Lemma encode_control source len_source (i best_size : Z) (fuel : nat) :
  forall st st2 a,
    control st = control st2 ->
    encode source len_source i best_size fuel st = Ok a ->
    exists a2,
      encode source len_source i best_size fuel st2 = Ok a2 /\ control a = control a2.
Proof.
  induction fuel as [|fuel IH]; intros st st2 a Hc Hrun; [discriminate|].
  cbn [encode] in Hrun |- *.
  assert (Hf : done st2 = done st /\ out_pos st2 = out_pos st /\
               length st2 = length st /\ src_pos st2 = src_pos st /\
               emitted st2 = emitted st)
    by (unfold control in Hc; inversion Hc; repeat split; reflexivity).
  destruct Hf as (Hf1 & Hf2 & Hf3 & Hf4 & Hf5). rewrite Hf1, Hf2, Hf3, Hf4, Hf5.
  destruct (negb (done st)); [|inversion Hrun; subst a; eauto].
  destruct (out_pos st >=? best_size); [inversion Hrun; subst a; eauto|].
  inv_bind Hrun. apply store_Ok in E. destruct E as [Hcell ->].
  rewrite store_ok by exact Hcell. cbn [bind].
  inv_bind Hrun.
  match type of E with
  | packet _ _ _ 9 0 ?s1 = _ =>
      match goal with
      | |- context [packet _ _ _ 9 0 ?s2] =>
          assert (Hc1 : control s1 = control s2) by reflexivity;
          destruct (packet_control source len_source i 9 0 s1 s2 x Hc1 E)
            as (x2 & Hx2 & Hcx)
      end
  end.
  rewrite Hx2. cbn [bind]. eapply IH; eassumption.
Qed.

Lemma trial_control source len_source (i best_size : Z) (d d' : row) (hp : Z)
      (a : trial_state) :
  trial source len_source i best_size d hp = Ok a ->
  exists a',
    trial source len_source i best_size d' hp = Ok a' /\ control a = control a'.
Proof.
  unfold trial. apply encode_control. reflexivity.
Qed.

Lemma selected_finished source len_source (cd : Z -> row) (t0 t1 : trial_state) :
  0 <= len_source ->
  trial source len_source 0 0x1000 (cd 0) 0 = Ok t0 ->
  trial source len_source 1 (tighten 0x1000 (length t0)) (cd 1) (header_pos t0) = Ok t1 ->
  done t0 = true \/ done t1 = true ->
  done (select t0 t1) = true.
Proof.
  intros Hlen H0 H1 Hsome.
  pose proof (trial_outcome source len_source 0 0x1000 (cd 0) 0 t0 Hlen
                (or_introl eq_refl) ltac:(lia) H0) as Hout0.
  pose proof (trial_outcome source len_source 1 _ (cd 1) (header_pos t0) t1 Hlen
                (or_intror eq_refl) (tighten_le _) H1) as Hout1.
  assert (Hhp0 : done t0 = true -> 2 <= header_pos t0).
  { intros Hd.
    destruct (trial_spec source len_source 0 (cd 0) Hlen (or_introl eq_refl) 0x1000 0)
      as (r & Hr & Hcase); [lia|].
    rewrite H0 in Hr. inversion Hr; subst r.
    destruct Hcase as [[(Hd' & _) _]|(_ & _ & Hhp & _)]; [congruence|lia]. }
  assert (Hhp1 : done t1 = true -> 2 <= header_pos t1).
  { intros Hd.
    destruct (trial_spec source len_source 1 (cd 1) Hlen (or_intror eq_refl)
                (tighten 0x1000 (length t0)) (header_pos t0) (tighten_le _))
      as (r & Hr & Hcase).
    rewrite H1 in Hr. inversion Hr; subst r.
    destruct Hcase as [[(Hd' & _) _]|(_ & _ & Hhp & _)]; [congruence|lia]. }
  unfold select.
  destruct (Z.leb_spec (length t0) (length t1)) as [Hle|Hgt];
    destruct Hout0 as [(Hd0 & Hl0 & _)|(Hd0 & Hl0)];
    destruct Hout1 as [(Hd1 & Hl1 & _)|(Hd1 & Hl1)];
    try assumption;
    try specialize (Hhp0 Hd0); try specialize (Hhp1 Hd1);
    try (exfalso; lia);
    destruct Hsome; congruence.
Qed.

(** X10: the bytes [compress] returns do not depend on what the rows of
    [compressed_data] held before the call, as soon as one of the two
    trials finishes: the frame is then read from cells the trial wrote. *)
Theorem X10_result_ignores_stack
    source len_source (cd cd' : Z -> row) (t0 t1 : trial_state) :
  0 <= len_source ->
  trial source len_source 0 0x1000 (cd 0) 0 = Ok t0 ->
  trial source len_source 1 (tighten 0x1000 (length t0)) (cd 1) (header_pos t0) = Ok t1 ->
  done t0 = true \/ done t1 = true ->
  compress source len_source cd' = compress source len_source cd.
Proof.
  intros Hlen H0 H1 Hsome.
  pose proof (selected_finished source len_source cd t0 t1 Hlen H0 H1 Hsome) as Hdone.
  destruct (trial_control source len_source 0 0x1000 (cd 0) (cd' 0) 0 t0 H0)
    as (u0 & Hu0 & Hc0).
  assert (Hf0 : length u0 = length t0 /\ header_pos u0 = header_pos t0 /\
                done u0 = done t0 /\ emitted u0 = emitted t0)
    by (unfold control in Hc0; inversion Hc0; repeat split; reflexivity).
  destruct Hf0 as (Hl0 & Hh0 & Hd0 & He0).
  destruct (trial_control source len_source 1 (tighten 0x1000 (length t0))
              (cd 1) (cd' 1) (header_pos t0) t1 H1) as (u1 & Hu1 & Hc1).
  assert (Hf1 : length u1 = length t1 /\ done u1 = done t1 /\ emitted u1 = emitted t1)
    by (unfold control in Hc1; inversion Hc1; repeat split; reflexivity).
  destruct Hf1 as (Hl1 & Hd1 & He1).
  rewrite (compress_eq source len_source cd t0 t1 H0 H1).
  assert (Hu1' : trial source len_source 1 (tighten 0x1000 (length u0)) (cd' 1)
                   (header_pos u0) = Ok u1) by (rewrite Hl0, Hh0; exact Hu1).
  rewrite (compress_eq source len_source cd' u0 u1 Hu0 Hu1').
  f_equal. unfold select in *. rewrite Hl0, Hl1.
  destruct (length t0 <=? length t1).
  - rewrite (proj2 (trial_body source len_source 0 (cd 0) Hlen (or_introl eq_refl)
                      0x1000 0 t0 ltac:(lia) H0) Hdone).
    rewrite (proj2 (trial_body source len_source 0 (cd' 0) Hlen (or_introl eq_refl)
                      0x1000 0 u0 ltac:(lia) Hu0) ltac:(congruence)).
    rewrite He0. reflexivity.
  - rewrite (proj2 (trial_body source len_source 1 (cd 1) Hlen (or_intror eq_refl)
                      _ _ t1 (tighten_le _) H1) Hdone).
    rewrite (proj2 (trial_body source len_source 1 (cd' 1) Hlen (or_intror eq_refl)
                      _ _ u1 (tighten_le _) Hu1) ltac:(congruence)).
    rewrite He1. reflexivity.
Qed.

Lemma X10_witness :
  compress (of_bytes abcabc) 12 (fun _ _ => 0xAA) = compress (of_bytes abcabc) 12 zeros.
Proof.
  eapply (X10_result_ignores_stack (of_bytes abcabc) 12 zeros (fun _ _ => 0xAA)).
  - lia.
  - vm_compute; reflexivity.
  - vm_compute; reflexivity.
  - left; reflexivity.
Defined.

(** ** A frame determines its elements *)

Lemma header_bits_below (l : list element) :
  forall b j, 0 <= j < b -> Z.testbit (header_bits b l) j = false.
Proof.
  induction l as [|[byte|lb bl] l IH]; intros b j Hj; cbn [header_bits].
  - apply Z.bits_0.
  - apply IH; lia.
  - rewrite Z.lor_spec, IH by lia. rewrite Z.shiftl_1_l, Z.pow2_bits_eqb by lia.
    destruct (Z.eqb_spec b j); [lia|reflexivity].
Qed.

Lemma lor_bit_cancel (b h h' : Z) :
  0 <= b -> Z.testbit h b = false -> Z.testbit h' b = false ->
  Z.lor (Z.shiftl 1 b) h = Z.lor (Z.shiftl 1 b) h' -> h = h'.
Proof.
  intros Hb Hh Hh' E. apply Z.bits_inj'. intros n Hn.
  destruct (Z.eq_dec n b) as [->|Hne]; [congruence|].
  assert (E' := f_equal (fun x => Z.testbit x n) E). cbn beta in E'.
  rewrite !Z.lor_spec, Z.shiftl_1_l, Z.pow2_bits_eqb in E' by lia.
  destruct (Z.eqb_spec b n); [lia|]. exact E'.
Qed.

(** Equal header bytes mark the same elements as matches. *)
Lemma header_bits_kinds (l : list element) :
  forall l' b, 0 <= b -> List.length l = List.length l' ->
    header_bits b l = header_bits b l' -> map is_literal l = map is_literal l'.
Proof.
  induction l as [|e l IH]; intros [|e' l'] b Hb Hlen E; try discriminate; [reflexivity|].
  cbn [List.length] in Hlen. injection Hlen as Hlen.
  destruct e as [x|o n], e' as [x'|o' n']; cbn [header_bits map is_literal] in *.
  - f_equal. apply (IH l' (b + 1)); [lia|assumption|assumption].
  - exfalso. assert (E' := f_equal (fun x => Z.testbit x b) E). cbn beta in E'.
    rewrite Z.lor_spec, !header_bits_below, Z.shiftl_1_l, Z.pow2_bits_eqb, Z.eqb_refl in E'
      by lia.
    discriminate.
  - exfalso. assert (E' := f_equal (fun x => Z.testbit x b) E). cbn beta in E'.
    rewrite Z.lor_spec, !header_bits_below, Z.shiftl_1_l, Z.pow2_bits_eqb, Z.eqb_refl in E'
      by lia.
    discriminate.
  - f_equal. apply (IH l' (b + 1)); [lia|assumption|].
    apply (lor_bit_cancel b); [lia|apply header_bits_below; lia
                              |apply header_bits_below; lia|exact E].
Qed.

(** The mask of line 91 sits above the bits of the elements. *)
Lemma header_mask_cancel (h h' a : Z) :
  0 <= a -> 0 <= h < 2 ^ a -> 0 <= h' < 2 ^ a ->
  Z.lor h (unused_bits a) = Z.lor h' (unused_bits a) -> h = h'.
Proof.
  intros Ha Hh Hh' E. apply Z.bits_inj'. intros n Hn.
  destruct (Z.lt_ge_cases n a) as [Hlt|Hge].
  - assert (E' := f_equal (fun x => Z.testbit x n) E). cbn beta in E'.
    unfold unused_bits in E'.
    rewrite !Z.lor_spec, Z.land_spec, Z.shiftl_spec_low in E' by lia.
    cbn [andb] in E'. now rewrite !Bool.orb_false_r in E'.
  - rewrite <- (Z.mod_small h (2 ^ a)), <- (Z.mod_small h' (2 ^ a)) by lia.
    now rewrite !Z.mod_pow2_bits_high by lia.
Qed.

Lemma tag_count (i a a' : Z) :
  i = 0 \/ i = 1 -> 0 <= a < 8 -> 0 <= a' < 8 ->
  Z.lor (tag_byte i) a = Z.lor (tag_byte i) a' -> a = a'.
Proof.
  intros Hi Ha Ha' E.
  assert (H : forall x, 0 <= x < 8 -> Z.land (Z.lor (tag_byte i) x) 7 = x).
  { intros x Hx.
    assert (Hc : x = 0 \/ x = 1 \/ x = 2 \/ x = 3 \/ x = 4 \/ x = 5 \/ x = 6 \/ x = 7)
      by lia.
    destruct Hi as [-> | ->]; intuition (subst; reflexivity). }
  rewrite <- (H a Ha), <- (H a' Ha'), E. reflexivity.
Qed.

Lemma match_bytes_inj (i o n o' n' : Z) :
  i = 0 \/ i = 1 ->
  match_ok i (Match o n) -> match_ok i (Match o' n') ->
  element_bytes i (Match o n) = element_bytes i (Match o' n') ->
  o = o' /\ n = n'.
Proof.
  intros Hi Hok Hok' E.
  destruct (match_word i o n Hi Hok) as (_ & Hb & Ho & Hn).
  destruct (match_word i o' n' Hi Hok') as (_ & Hb' & Ho' & Hn').
  rewrite Hb, Hb' in E. injection E as Elo Ehi.
  assert (Hw : compr_stream_of i o n = compr_stream_of i o' n').
  { rewrite (Z.div_mod (compr_stream_of i o n) 0x100),
            (Z.div_mod (compr_stream_of i o' n') 0x100) by lia.
    rewrite Elo, Ehi. reflexivity. }
  split; congruence.
Qed.

(** The bytes of a run of elements give the elements back, the header
    bits saying which of them are matches. *)
Lemma elements_inj (i : Z) (l : list element) :
  i = 0 \/ i = 1 ->
  forall l' r r',
    Forall (match_ok i) l -> Forall (match_ok i) l' ->
    map is_literal l = map is_literal l' ->
    flat_map (element_bytes i) l ++ r = flat_map (element_bytes i) l' ++ r' ->
    l = l' /\ r = r'.
Proof.
  intros Hi. induction l as [|e l IH]; intros [|e' l'] r r' Hall Hall' Hk E;
    try discriminate.
  - split; [reflexivity|exact E].
  - inversion Hall as [|? ? He Hl]; inversion Hall' as [|? ? He' Hl']; subst.
    cbn [map] in Hk. injection Hk as Hk1 Hk.
    cbn [flat_map] in E. rewrite <- !app_assoc in E.
    destruct e as [x|o n], e' as [x'|o' n']; cbn [is_literal] in Hk1; try discriminate.
    + cbn [element_bytes app] in E. injection E as -> E.
      destruct (IH l' r r' Hl Hl' Hk E) as [-> ->]. split; reflexivity.
    + destruct (match_word i o n Hi He) as (_ & Hb & _).
      destruct (match_word i o' n' Hi He') as (_ & Hb' & _).
      assert (Hbytes : element_bytes i (Match o n) = element_bytes i (Match o' n')).
      { rewrite Hb, Hb' in *. cbn [app] in E. injection E as E1 E2 _.
        rewrite E1, E2. reflexivity. }
      destruct (match_bytes_inj i o n o' n' Hi He He' Hbytes) as [-> ->].
      apply app_inv_head in E.
      destruct (IH l' r r' Hl Hl' Hk E) as [-> ->]. split; reflexivity.
Qed.

Lemma firstn_plus {A : Type} (n m : nat) :
  forall l : list A, firstn (n + m) l = firstn n l ++ firstn m (skipn n l).
Proof.
  induction n as [|n IH]; intros [|x l]; cbn [Nat.add firstn skipn app];
    try reflexivity; [now rewrite firstn_nil|].
  f_equal. apply IH.
Qed.

Lemma app_same_length {A : Type} (l1 : list A) :
  forall l2 r1 r2,
    List.length l1 = List.length l2 -> l1 ++ r1 = l2 ++ r2 -> l1 = l2 /\ r1 = r2.
Proof.
  induction l1 as [|x l1 IH]; intros [|y l2] r1 r2 Hlen E; try discriminate.
  - split; [reflexivity|exact E].
  - cbn [app] in E. injection E as -> E. cbn [List.length] in Hlen.
    destruct (IH l2 r1 r2 ltac:(lia) E) as [-> ->]. split; reflexivity.
Qed.

Lemma full_packets_inj (i : Z) :
  i = 0 \/ i = 1 ->
  forall n n' l l',
    Forall (match_ok i) l -> Forall (match_ok i) l' ->
    (8 * n <= List.length l)%nat -> (8 * n' <= List.length l')%nat ->
    full_packets i n l = full_packets i n' l' ->
    n = n' /\ firstn (8 * n) l = firstn (8 * n') l'.
Proof.
  intros Hi. induction n as [|n IH]; intros [|n'] l l' Hall Hall' Hn Hn' E;
    try discriminate.
  - split; reflexivity.
  - destruct (Forall_firstn_skipn _ 8 l Hall) as [H8 Hrest].
    destruct (Forall_firstn_skipn _ 8 l' Hall') as [H8' Hrest'].
    cbn [full_packets] in E. unfold packet_bytes in E. cbn [app] in E.
    injection E as Eh Eb.
    assert (Hk : map is_literal (firstn 8 l) = map is_literal (firstn 8 l')).
    { apply (header_bits_kinds _ _ 0); [lia| |exact Eh].
      rewrite !length_firstn. lia. }
    destruct (elements_inj i (firstn 8 l) Hi (firstn 8 l') _ _ H8 H8' Hk Eb)
      as [Efirst Etail].
    destruct (IH n' (skipn 8 l) (skipn 8 l') Hrest Hrest') as [-> Erest];
      [rewrite length_skipn; lia|rewrite length_skipn; lia|exact Etail|].
    split; [reflexivity|].
    replace (8 * S n')%nat with (8 + 8 * n')%nat by lia.
    rewrite !firstn_plus, Efirst, Erest. reflexivity.
Qed.

Lemma terminator_cons (i m : Z) (tl : list element) :
  tl <> [] ->
  terminator i m tl =
  Z.lor (tag_byte i) (Z.of_nat (List.length tl)) :: m mod 0x100 :: m / 0x100
  :: Z.lor (header_bits 0 tl) (unused_bits (Z.of_nat (List.length tl)))
  :: flat_map (element_bytes i) tl ++ [tag_byte i].
Proof. destruct tl; [congruence|reflexivity]. Qed.

Lemma terminator_inj (i m m' : Z) (tl tl' : list element) :
  i = 0 \/ i = 1 ->
  Forall (match_ok i) tl -> Forall (match_ok i) tl' ->
  (List.length tl < 8)%nat -> (List.length tl' < 8)%nat ->
  terminator i m tl = terminator i m' tl' -> tl = tl'.
Proof.
  intros Hi Hall Hall' Hlen Hlen' E.
  destruct tl as [|e tl], tl' as [|e' tl']; [reflexivity|discriminate|discriminate|].
  rewrite !terminator_cons in E by discriminate.
  remember (e :: tl) as L eqn:HL. remember (e' :: tl') as L' eqn:HL'.
  injection E as Ea _ _ Eh Eb.
  apply (tag_count i) in Ea; [|exact Hi|lia|lia].
  rewrite <- Ea in Eh.
  apply header_mask_cancel in Eh;
    [|lia|apply (header_bits_bound L 0); lia
     |rewrite Ea; apply (header_bits_bound L' 0); lia].
  assert (Hk : map is_literal L = map is_literal L').
  { apply (header_bits_kinds _ _ 0); [lia|lia|exact Eh]. }
  destruct (elements_inj i L Hi L' _ _ Hall Hall' Hk Eb) as [E _].
  exact E.
Qed.

(** Two runs of well-formed elements with the same frame are the same. *)
Lemma frame_of_inj (i : Z) (l l' : list element) :
  i = 0 \/ i = 1 ->
  Forall (match_ok i) l -> Forall (match_ok i) l' ->
  frame_of i l = frame_of i l' -> l = l'.
Proof.
  intros Hi Hall Hall' E. unfold frame_of in E. cbv zeta in E.
  set (n := (List.length l / 8)%nat) in *.
  set (n' := (List.length l' / 8)%nat) in *.
  assert (Hn : (8 * n <= List.length l /\ List.length l - 8 * n < 8)%nat).
  { pose proof (Nat.div_mod_eq (List.length l) 8) as H.
    pose proof (Nat.mod_upper_bound (List.length l) 8). fold n in H. lia. }
  assert (Hn' : (8 * n' <= List.length l' /\ List.length l' - 8 * n' < 8)%nat).
  { pose proof (Nat.div_mod_eq (List.length l') 8) as H.
    pose proof (Nat.mod_upper_bound (List.length l') 8). fold n' in H. lia. }
  remember (full_packets i n l) as B eqn:HB.
  remember (full_packets i n' l') as B' eqn:HB'.
  set (T := terminator i _ (skipn (8 * n) l)) in E.
  set (T' := terminator i _ (skipn (8 * n') l')) in E.
  cbn [app] in E. injection E as Elo Ehi Eb.
  assert (Hsame : List.length B = List.length B').
  { apply Nat2Z.inj.
    rewrite (Z.div_mod (Z.of_nat (List.length B)) 0x100),
            (Z.div_mod (Z.of_nat (List.length B')) 0x100) by lia.
    rewrite Elo, Ehi. reflexivity. }
  destruct (app_same_length _ _ _ _ Hsame Eb) as [Ebody Eterm].
  subst B B'.
  destruct (full_packets_inj i Hi n n' l l' Hall Hall') as [En Efirst];
    [lia|lia|exact Ebody|].
  destruct (Forall_firstn_skipn _ (8 * n) l Hall) as [_ Hrest].
  destruct (Forall_firstn_skipn _ (8 * n') l' Hall') as [_ Hrest'].
  unfold T, T' in Eterm.
  apply terminator_inj in Eterm;
    [|exact Hi|exact Hrest|exact Hrest'|rewrite length_skipn; lia|rewrite length_skipn; lia].
  rewrite <- (firstn_skipn (8 * n) l), <- (firstn_skipn (8 * n') l'), Efirst, Eterm.
  reflexivity.
Qed.

(** The last byte of a frame names the configuration. *)
Lemma frame_of_tag (i : Z) (l : list element) :
  exists pre, frame_of i l = pre ++ [tag_byte i].
Proof.
  unfold frame_of. cbv zeta.
  destruct (skipn (8 * (List.length l / 8)) l) as [|e tl].
  - eexists. cbn [terminator]. rewrite app_assoc. reflexivity.
  - eexists. unfold terminator. rewrite !app_assoc. reflexivity.
Qed.

Lemma frame_of_config (i i' : Z) (l l' : list element) :
  i = 0 \/ i = 1 -> i' = 0 \/ i' = 1 ->
  frame_of i l = frame_of i' l' -> i = i'.
Proof.
  intros Hi Hi' E.
  destruct (frame_of_tag i l) as (pre & Hp).
  destruct (frame_of_tag i' l') as (pre' & Hp').
  rewrite Hp, Hp' in E. apply app_inj_tail in E. destruct E as [_ E].
  destruct Hi as [-> | ->], Hi' as [-> | ->]; try reflexivity; discriminate.
Qed.

(** ** What [compress] returns *)

Lemma finished_parsed source len_source (i best_size : Z) (d : row) (hp : Z)
      (st : trial_state) :
  0 <= len_source -> i = 0 \/ i = 1 -> best_size <= 0x1000 ->
  trial source len_source i best_size d hp = Ok st ->
  done st = true ->
  parsed source len_source i len_source (emitted st).
Proof.
  intros Hlen Hi HB Hst Hdone.
  destruct (trial_spec source len_source i d Hlen Hi best_size hp HB)
    as (r & Hr & Hcase).
  rewrite Hst in Hr. inversion Hr; subst r; clear Hr.
  destruct Hcase as [[(Hd & _) _]|(_ & _ & _ & _ & _ & _ & _ & Hpar & _)];
    [congruence|exact Hpar].
Qed.

(** The frame of the selected trial, when that trial has finished. *)
Lemma selected_frame source len_source (cd : Z -> row) (t0 t1 : trial_state) :
  0 <= len_source ->
  trial source len_source 0 0x1000 (cd 0) 0 = Ok t0 ->
  trial source len_source 1 (tighten 0x1000 (length t0)) (cd 1) (header_pos t0) = Ok t1 ->
  done (select t0 t1) = true ->
  exists i l,
    (i = 0 \/ i = 1) /\
    frame (select t0 t1) = frame_of i l /\
    Forall (match_ok i) l /\
    expand (rev l) = bytes_from source 0 (Z.to_nat len_source) /\
    parsed source len_source i len_source (rev l) /\
    Z.of_nat (List.length (frame_of i l)) <= len_source + len_source / 8 + 7.
Proof.
  intros Hlen H0 H1 Hdone. unfold select in *.
  destruct (length t0 <=? length t1).
  - destruct (finished_size source len_source 0 0x1000 (cd 0) 0 t0 Hlen
                (or_introl eq_refl) ltac:(lia) H0 Hdone) as (Hall & _ & Hframe & Hbound).
    pose proof (finished_parsed source len_source 0 0x1000 (cd 0) 0 t0 Hlen
                  (or_introl eq_refl) ltac:(lia) H0 Hdone) as Hpar.
    exists 0, (rev (emitted t0)). split; [left; reflexivity|]. split; [exact Hframe|].
    split; [exact Hall|]. rewrite rev_involutive.
    split; [apply (parsed_expand source len_source 0 len_source _ (or_introl eq_refl) Hpar)|].
    split; [exact Hpar|].
    rewrite <- Hframe, frame_length. lia.
  - destruct (finished_size source len_source 1 _ (cd 1) _ t1 Hlen
                (or_intror eq_refl) (tighten_le _) H1 Hdone)
      as (Hall & _ & Hframe & Hbound).
    pose proof (finished_parsed source len_source 1 _ (cd 1) _ t1 Hlen
                  (or_intror eq_refl) (tighten_le _) H1 Hdone) as Hpar.
    exists 1, (rev (emitted t1)). split; [right; reflexivity|]. split; [exact Hframe|].
    split; [exact Hall|]. rewrite rev_involutive.
    split; [apply (parsed_expand source len_source 1 len_source _ (or_intror eq_refl) Hpar)|].
    split; [exact Hpar|].
    rewrite <- Hframe, frame_length. lia.
Qed.

(** X11: on an input of at most 3639 bytes [compress] returns, whatever
    the rows held, the layout of the elements the finder chose along the
    input, under one of the two configurations: the elements are well
    formed, they expand to the input, and the frame is at most
    [len_source + len_source / 8 + 7] bytes long. *)
Theorem X11_small_input_round_trip source len_source (cd : Z -> row) :
  0 <= len_source <= 3639 ->
  exists i l,
    (i = 0 \/ i = 1) /\
    compress source len_source cd = Ok (frame_of i l) /\
    Forall (match_ok i) l /\
    expand (rev l) = bytes_from source 0 (Z.to_nat len_source) /\
    parsed source len_source i len_source (rev l) /\
    Z.of_nat (List.length (frame_of i l)) <= len_source + len_source / 8 + 7.
Proof.
  intros [Hlen Hsmall].
  destruct (compress_total source len_source cd Hlen) as (t0 & t1 & H0 & H1 & Hc).
  assert (Hroom : 2 + len_source + len_source / 8 < 0x1000).
  { assert (len_source / 8 <= 3639 / 8) by (apply Z.div_le_mono; lia).
    change (3639 / 8) with 454 in *. lia. }
  pose proof (trial_finishes source len_source 0 0x1000 (cd 0) 0 t0 Hlen
                (or_introl eq_refl) ltac:(lia) Hroom H0) as Hd0.
  pose proof (selected_finished source len_source cd t0 t1 Hlen H0 H1 (or_introl Hd0))
    as Hdone.
  destruct (selected_frame source len_source cd t0 t1 Hlen H0 H1 Hdone)
    as (i & l & Hi & Hframe & Hrest).
  exists i, l. split; [exact Hi|]. split; [|exact Hrest].
  rewrite Hc, Hframe. reflexivity.
Qed.

Lemma X11_witness :
  exists i l,
    (i = 0 \/ i = 1) /\
    compress counter 3639 zeros = Ok (frame_of i l) /\
    Forall (match_ok i) l /\
    expand (rev l) = bytes_from counter 0 (Z.to_nat 3639) /\
    parsed counter 3639 i 3639 (rev l) /\
    Z.of_nat (List.length (frame_of i l)) <= 3639 + 3639 / 8 + 7.
Proof.
  apply (X11_small_input_round_trip counter 3639 zeros). lia.
Defined.

(** X12: [compress] loses nothing: two calls that return the same bytes,
    fewer than the [0x10000] of a row no trial has finished, were given
    the same input, of the same length, whatever their rows held. *)
Theorem X12_output_determines_input
    source len_source (cd : Z -> row) source' len_source' (cd' : Z -> row)
    (out : list Z) :
  0 <= len_source -> 0 <= len_source' ->
  compress source len_source cd = Ok out ->
  compress source' len_source' cd' = Ok out ->
  Z.of_nat (List.length out) < 0x10000 ->
  len_source' = len_source /\
  forall k, 0 <= k < len_source -> source' k = source k.
Proof.
  intros Hlen Hlen' Hout Hout' Hshort.
  assert (Hfin : forall s n c,
             0 <= n -> compress s n c = Ok out ->
             exists i l, (i = 0 \/ i = 1) /\ out = frame_of i l /\
                         Forall (match_ok i) l /\
                         expand (rev l) = bytes_from s 0 (Z.to_nat n)).
  { intros s n c Hn Hc.
    destruct (compress_total s n c Hn) as (t0 & t1 & H0 & H1 & Hc').
    rewrite Hc' in Hc. inversion Hc as [Hframe].
    assert (Hdone : done (select t0 t1) = true).
    { rewrite <- Hframe, frame_length in Hshort.
      pose proof (trial_outcome s n 0 0x1000 (c 0) 0 t0 Hn
                    (or_introl eq_refl) ltac:(lia) H0) as Hout0.
      pose proof (trial_outcome s n 1 _ (c 1) (header_pos t0) t1 Hn
                    (or_intror eq_refl) (tighten_le _) H1) as Hout1.
      unfold select in *.
      destruct (length t0 <=? length t1);
        [destruct Hout0 as [(_ & Hl & _)|(Hd & _)]
        |destruct Hout1 as [(_ & Hl & _)|(Hd & _)]];
        try exact Hd; rewrite Hl in Hshort; lia. }
    destruct (selected_frame s n c t0 t1 Hn H0 H1 Hdone)
      as (i & l & Hi & Hfr & Hall & Hexp & _).
    exists i, l. split; [exact Hi|]. split; [exact Hfr|]. split; assumption. }
  destruct (Hfin source len_source cd Hlen Hout) as (i & l & Hi & Hf & Hall & Hexp).
  destruct (Hfin source' len_source' cd' Hlen' Hout') as (i' & l' & Hi' & Hf' & Hall' & Hexp').
  rewrite Hf in Hf'.
  pose proof (frame_of_config i i' l l' Hi Hi' Hf'). subst i'.
  pose proof (frame_of_inj i l l' Hi Hall Hall' Hf'). subst l'.
  rewrite Hexp in Hexp'.
  assert (Hsame : len_source' = len_source).
  { pose proof (f_equal (@List.length Z) Hexp') as Hl.
    rewrite !bytes_from_length in Hl. lia. }
  split; [exact Hsame|]. intros k Hk. subst len_source'.
  pose proof (f_equal (fun b => nth (Z.to_nat k) b 0) Hexp') as Hk'. cbn beta in Hk'.
  rewrite !nth_bytes_from in Hk' by lia.
  rewrite Z2Nat.id in Hk' by lia. cbn [Z.add] in Hk'. symmetry. exact Hk'.
Qed.

Lemma X12_witness :
  12 = 12 /\
  forall k, 0 <= k < 12 -> of_bytes (abcabc ++ [9; 9]) k = of_bytes abcabc k.
Proof.
  apply (X12_output_determines_input
           (of_bytes abcabc) 12 zeros
           (of_bytes (abcabc ++ [9; 9])) 12 (fun _ _ => 0xAA)
           [0; 0; 0xC4; 11; 0; 0xF8; 65; 66; 67; 3; 0x30; 0xC0]).
  - lia.
  - lia.
  - vm_compute; reflexivity.
  - vm_compute; reflexivity.
  - vm_compute; reflexivity.
Defined.
